(** * pyCLARA: georeferencing, region masks and raster writers

    A shallow embedding of [code/lib/spatial_functions.py] and
    [code/lib/initialization.py].

    Numbers.  Coordinates and pixel sizes are Python/numpy floats.  They are
    modelled by rationals [Q]: every finite float is a rational, negation
    and absolute value are exact on floats, and numeric comparison ([==],
    [!=]) is [Qeq_bool], not syntactic equality.  Where a result is
    truncated to an integer (the grid size of [calc_region]) the rounding
    of the subtraction and of the division decides the outcome, and both
    are rounded to the nearest double ([round64]); elsewhere sums and
    products are the exact ones.  Pixel counts are Python integers,
    modelled by [Z].

    Errors.  A Python exception (and [sys.exit], which raises [SystemExit])
    is the [Raise] case of [result]. *)

From Stdlib Require Import ZArith QArith Qabs Qround Qpower String List Lia.
From stdpp Require Import gmap strings list fin_maps.

Local Open Scope string_scope.

(** ** Exceptions and results *)

Inductive exn : Type :=
  | IndexError
  | ValueError
  | OverflowError
  | AttributeError
  | UnboundLocalError
  | RasterioIOError
  | SystemExit (code : Z).

Inductive result (A : Type) : Type :=
  | Ok (a : A)
  | Raise (e : exn).
Arguments Ok {A} a.
Arguments Raise {A} e.

#[global] Instance result_bind : MBind result := fun A B k m =>
  match m with
  | Ok a => k a
  | Raise e => Raise e
  end.

#[global] Instance result_ret : MRet result := fun A a => Ok a.

Definition is_Ok {A : Type} (r : result A) : Prop :=
  match r with Ok _ => True | Raise _ => False end.

(** [l[i]] for a literal index [i >= 0]: Python raises [IndexError] out of
    range. *)
Definition index {A : Type} (l : list A) (i : nat) : result A :=
  match l !! i with
  | Some x => Ok x
  | None => Raise IndexError
  end.

(** ** Double arithmetic *)

(** The integer nearest to [q], ties to the even one. *)
Definition round_half_even (q : Q) : Z :=
  let f := Qfloor q in
  match (q - inject_Z f ?= 1 # 2)%Q with
  | Lt => f
  | Gt => (f + 1)%Z
  | Eq => if Z.even f then f else (f + 1)%Z
  end.

(** For [q <> 0], the exponent [b] with [2^b <= |q| < 2^(b+1)]. *)
Definition binade (q : Q) : Z :=
  let b := (Z.log2 (Z.abs (Qnum q)) - Z.log2 (Zpos (Qden q)))%Z in
  if Qle_bool (2 ^ b) (Qabs q) then b else (b - 1)%Z.

(** Rounding to the nearest double: 53 significant bits, ties to even.
    The exponent range is not bounded (no overflow, no subnormals). *)
Definition round64 (q : Q) : Q :=
  if Qeq_bool q 0 then 0%Q
  else
    let e := (binade q - 52)%Z in
    (inject_Z (round_half_even (q / 2 ^ e)) * 2 ^ e)%Q.

(** The value of a numpy division: a double, an infinity or not a number. *)
Inductive np_float64 : Type :=
  | Finite (q : Q)
  | Inf
  | NaN.

(** [x - y] on doubles. *)
Definition np_sub (x y : Q) : Q := round64 (x - y).

(** [x / y] with a numpy scalar [y], as in the resolution that
    [initialization] stores: a zero divisor gives an infinity (nan for
    0 / 0) and a warning, not an exception. *)
Definition np_div (x y : Q) : np_float64 :=
  if Qeq_bool y 0 then (if Qeq_bool x 0 then NaN else Inf)
  else Finite (round64 (x / y)).

(** [int(x)] truncates toward zero; an infinity is an [OverflowError], not
    a number a [ValueError]. *)
Definition py_int (x : np_float64) : result Z :=
  match x with
  | Finite q => Ok (Z.quot (Qnum q) (Zpos (Qden q)))
  | Inf => Raise OverflowError
  | NaN => Raise ValueError
  end.

(** ** Two-dimensional numpy arrays

    The shape is kept next to the rows, as numpy does: an array of shape
    [(0, n)] has no row but still [n] columns. *)

Record ndarray : Type := mk_ndarray {
  nrows : nat;
  ncols : nat;
  cells : list (list Q)
}.

Definition shape (a : ndarray) : list Z := [Z.of_nat (nrows a); Z.of_nat (ncols a)].

(** [np.ones((M, N))]: negative dimensions are a [ValueError].  (The limits
    of the platform on the size of an array are not modelled.) *)
Definition np_ones (M N : Z) : result ndarray :=
  if ((M <? 0) || (N <? 0))%Z then Raise ValueError
  else Ok (mk_ndarray (Z.to_nat M) (Z.to_nat N)
             (replicate (Z.to_nat M) (replicate (Z.to_nat N) 1%Q))).

(** [np.flipud(a)]: the rows in reverse order. *)
Definition flipud (a : ndarray) : ndarray :=
  mk_ndarray (nrows a) (ncols a) (reverse (cells a)).

(** An array is well formed when its rows agree with its shape. *)
Definition wf_ndarray (a : ndarray) : Prop :=
  length (cells a) = nrows a /\ Forall (fun r => length r = ncols a) (cells a).

(** ** calc_geotiff *)

(** The georeference dictionary, with its four fixed keys. *)
Record GeoRef : Type := mk_GeoRef {
  RasterOrigin : list Q;
  RasterOrigin_alt : list Q;
  pixelWidth : Q;
  pixelHeight : Q
}.

Definition calc_geotiff (Crd_all res_desired : list Q) : result GeoRef :=
  c3 ← index Crd_all 3;
  c0 ← index Crd_all 0;
  c2 ← index Crd_all 2;
  r1 ← index res_desired 1;
  r0 ← index res_desired 0;
  Ok {| RasterOrigin := [c3; c0];
        RasterOrigin_alt := [c3; c2];
        pixelWidth := r1;
        pixelHeight := (- r0)%Q |}.

(** ** calc_region *)

(** Region geometries (shapely): what [geom_type] and iteration need. *)
Inductive Geometry : Type :=
  | Point (p : Q * Q)
  | Polygon (exterior : list (Q * Q))
  | MultiPolygon (polygons : list (list (Q * Q))).

Definition geom_type (g : Geometry) : string :=
  match g with
  | Point _ => "Point"
  | Polygon _ => "Polygon"
  | MultiPolygon _ => "MultiPolygon"
  end.

(** [rasterio]'s affine transform [Affine(a, b, c, d, e, f)]: pixel
    (col, row) is mapped to (a*col + b*row + c, d*col + e*row + f). *)
Record Affine : Type := mk_Affine {
  aff_a : Q; aff_b : Q; aff_c : Q;
  aff_d : Q; aff_e : Q; aff_f : Q
}.

(** [rasterio.transform.from_origin(west, north, xsize, ysize)], as the
    library documents it:
    [Affine.translation(west, north) * Affine.scale(xsize, -ysize)]. *)
Definition from_origin (west north xsize ysize : Q) : Affine :=
  mk_Affine xsize 0 west 0 (- ysize) north.

Record Profile : Type := mk_Profile {
  driver : string;
  height : Z;
  width : Z;
  count : Z;
  dtype : string;
  crs : string;
  transform : Affine
}.

(** Lines 116-121: the grid of ones and its origin. *)
Definition calc_region_grid (Crd_reg res_desired : list Q)
  : result (Z * Z * ndarray * list Q) :=
  c2 ← index Crd_reg 2;
  c0 ← index Crd_reg 0;
  let latlim := np_sub c2 c0 in
  c3 ← index Crd_reg 3;
  c1 ← index Crd_reg 1;
  let lonlim := np_sub c3 c1 in
  r0 ← index res_desired 0;
  M ← py_int (np_div (Qabs latlim) r0);
  r1 ← index res_desired 1;
  N ← py_int (np_div (Qabs lonlim) r1);
  A_region ← np_ones M N;
  c3' ← index Crd_reg 3;
  c2' ← index Crd_reg 2;
  Ok (M, N, A_region, [c3'; c2']).

(** Iterating over a multi-part geometry yields its parts. *)
Definition geoms (g : Geometry) : list Geometry :=
  match g with
  | MultiPolygon polygons => map Polygon polygons
  | _ => []
  end.

(** Lines 123-126: a multi-polygon is split into its parts. *)
Definition calc_region_features (geometry : Geometry) : list Geometry :=
  if String.eqb (geom_type geometry) "MultiPolygon" then geoms geometry
  else [geometry].

(** Lines 127-137: the raster profile. *)
Definition calc_region_profile (M N : Z) (origin : list Q) (G : GeoRef)
  : result Profile :=
  west ← index origin 0;
  south ← index origin 1;
  Ok {| driver := "GTiff";
        height := M;
        width := N;
        count := 1;
        dtype := "float64";
        crs := "EPSG:4326";
        transform := from_origin west south (pixelWidth G) (pixelHeight G) |}.

(** Lines 116-137: everything before the in-memory raster is opened. *)
Definition calc_region_setup (geometry : Geometry) (Crd_reg res_desired : list Q)
    (G : GeoRef) : result (Profile * ndarray * list Geometry) :=
  g ← calc_region_grid Crd_reg res_desired;
  let '(M, N, A_region, origin) := g in
  let features := calc_region_features geometry in
  profile ← calc_region_profile M N origin G;
  Ok (profile, A_region, features).

Section CalcRegion.

(** The in-memory raster and [rasterio.mask.mask] (lines 139-143) are the
    masking collaborator: it receives the profile, the grid written to
    band 1 and the features, and yields [out_image[0]] or raises. *)
Variable mask_mask : Profile -> ndarray -> list Geometry -> result ndarray.

Definition calc_region (geometry : Geometry) (Crd_reg res_desired : list Q)
    (G : GeoRef) : result ndarray :=
  s ← calc_region_setup geometry Crd_reg res_desired G;
  let '(profile, A_region, features) := s in
  mask_mask profile A_region features.

End CalcRegion.

Section RasterioMask.

(** Which pixels of a raster are covered by the features (the centre of
    the pixel lies in one of them), and whether the features are acceptable
    at all, is decided by the geometry engine of rasterio. *)
Variable geometry_mask :
  Affine -> Z -> Z -> list Geometry -> result (nat -> nat -> bool).

(** [memfile.open] with the profile: GDAL refuses a raster without rows
    or without columns. *)
Definition memfile_open (profile : Profile) : result Profile :=
  if ((height profile <? 1) || (width profile <? 1))%Z
  then Raise RasterioIOError
  else Ok profile.

(** Lines 139-143: the grid is written to band 1 of the in-memory raster
    and masked by the features with [crop=False], [nodata=0],
    [filled=True]: the result has the shape of the raster, the pixels
    outside the features are 0 and the others keep their value. *)
Definition rasterio_mask (profile : Profile) (A_region : ndarray)
    (features : list Geometry) : result ndarray :=
  f ← memfile_open profile;
  match geometry_mask (transform f) (height f) (width f) features with
  | Raise e => Raise e
  | Ok inside =>
      Ok (mk_ndarray (nrows A_region) (ncols A_region)
            (imap (fun (i : nat) (row : list Q) =>
                     imap (fun (j : nat) (x : Q) =>
                             if inside i j then x else 0%Q) row)
                  (cells A_region)))
  end.

End RasterioMask.

(** ** The file system, standard output and GDAL datasets *)

Inductive GDALDataType : Type := GDT_Float32 | GDT_Float64.

Record Dataset : Type := mk_Dataset {
  GeoTransform : Q * Q * Q * Q * Q * Q;
  RasterXSize : Z;
  RasterYSize : Z;
  RasterCount : Z;
  DataType : GDALDataType;
  CreationOptions : list string;
  Projection : string;
  Band1 : ndarray
}.

Inductive File : Type :=
  | RasterFile (d : Dataset)
  | CsvFile (sep decimal : string) (columns index : list string)
  | OtherFile.

Inductive Event : Type :=
  | Timecheck (label : string)
  | Print (msg : string).

Record World : Type := mk_World {
  files : gmap string File;
  stdout : list Event
}.

(** Stateful, fallible code: the world is threaded through, and an
    exception keeps the world reached so far. *)
Definition M (A : Type) : Type := World -> result A * World.

#[global] Instance M_ret : MRet M := fun A a w => (Ok a, w).

#[global] Instance M_bind : MBind M := fun A B k m w =>
  match m w with
  | (Ok a, w') => k a w'
  | (Raise e, w') => (Raise e, w')
  end.

Definition raise {A : Type} (e : exn) : M A := fun w => (Raise e, w).

Definition lift {A : Type} (r : result A) : M A := fun w => (r, w).

Definition print (msg : string) : M unit :=
  fun w => (Ok tt, mk_World (files w) (stdout w ++ [Print msg])).

(** [lib.util.timecheck] only reports the time on standard output. *)
Definition timecheck (label : string) : M unit :=
  fun w => (Ok tt, mk_World (files w) (stdout w ++ [Timecheck label])).

Definition sys_exit {A : Type} (code : Z) : M A := raise (SystemExit code).

Definition os_path_isfile (p : string) : M bool :=
  fun w => (Ok (match files w !! p with Some _ => true | None => false end), w).

Definition os_path_exists (p : string) : M bool := os_path_isfile p.

(** [s.endswith(suffix)] *)
Definition endswith (s suffix : string) : bool :=
  let n := String.length s in
  let m := String.length suffix in
  (m <=? n)%nat && String.eqb (substring (n - m) m s) suffix.

(** [gdal.Open(p)]: the dataset, or [None] when [p] is not a raster. *)
Definition gdal_Open (p : string) : M (option Dataset) :=
  fun w => (Ok (match files w !! p with
                | Some (RasterFile d) => Some d
                | _ => None
                end), w).

(** A method call on the result of [gdal.Open]: on [None] it is an
    [AttributeError]. *)
Definition deref {A : Type} (o : option A) : M A :=
  match o with
  | Some a => mret a
  | None => raise AttributeError
  end.

Definition zeros (r c : nat) : ndarray :=
  mk_ndarray r c (replicate r (replicate c 0%Q)).

(** [driver.Create(path, xsize, ysize, bands, type, options)]: a new file
    of zeros with the default georeference replaces whatever was at
    [path]; the handle is the path.  GDAL refuses sizes below one and
    returns [None]. *)
Definition driver_Create (path : string) (xsize ysize bands : Z)
    (t : GDALDataType) (options : list string) : M (option string) :=
  fun w =>
    if ((xsize <? 1) || (ysize <? 1))%Z then (Ok None, w)
    else
      let d := mk_Dataset (0, 1, 0, 0, 0, 1)%Q xsize ysize bands t options ""
                 (zeros (Z.to_nat ysize) (Z.to_nat xsize)) in
      (Ok (Some path), mk_World (<[path := RasterFile d]> (files w)) (stdout w)).

(** An update of the dataset behind a handle. *)
Definition update_dataset (h : string) (f : Dataset -> result Dataset) : M unit :=
  fun w =>
    match files w !! h with
    | Some (RasterFile d) =>
        match f d with
        | Ok d' => (Ok tt, mk_World (<[h := RasterFile d']> (files w)) (stdout w))
        | Raise e => (Raise e, w)
        end
    | _ => (Raise AttributeError, w)
    end.

Definition SetGeoTransform (h : string) (gt : Q * Q * Q * Q * Q * Q) : M unit :=
  update_dataset h (fun d =>
    Ok (mk_Dataset gt (RasterXSize d) (RasterYSize d) (RasterCount d)
          (DataType d) (CreationOptions d) (Projection d) (Band1 d))).

Definition SetProjection (h : string) (wkt : string) : M unit :=
  update_dataset h (fun d =>
    Ok (mk_Dataset (GeoTransform d) (RasterXSize d) (RasterYSize d)
          (RasterCount d) (DataType d) (CreationOptions d) wkt (Band1 d))).

(** Writing [src] over the top-left corner of [dst]. *)
Definition overlay_row (src dst : list Q) : list Q :=
  src ++ drop (length src) dst.

Definition overlay (src dst : list (list Q)) : list (list Q) :=
  zip_with overlay_row src dst ++ drop (length src) dst.

Section Writers.

(** Storing a value in a 32-bit band rounds it; the rounding itself is
    left open.  A 64-bit band keeps the value. *)
Variable round_float32 : Q -> Q.

Definition gdal_cast (t : GDALDataType) (x : Q) : Q :=
  match t with
  | GDT_Float32 => round_float32 x
  | GDT_Float64 => x
  end.

(** [band.WriteArray(array)] at offset (0, 0): an array larger than the
    band is a [ValueError]; otherwise its values, converted to the band's
    type, replace the top-left corner of the band. *)
Definition WriteArray (h : string) (array : ndarray) : M unit :=
  update_dataset h (fun d =>
    if ((Z.of_nat (ncols array) >? RasterXSize d)
        || (Z.of_nat (nrows array) >? RasterYSize d))%Z
    then Raise ValueError
    else Ok (mk_Dataset (GeoTransform d) (RasterXSize d) (RasterYSize d)
               (RasterCount d) (DataType d) (CreationOptions d) (Projection d)
               (mk_ndarray (nrows (Band1 d)) (ncols (Band1 d))
                  (overlay (map (map (gdal_cast (DataType d))) (cells array))
                           (cells (Band1 d)))))).

(** Files are written through, so flushing changes nothing. *)
Definition FlushCache (h : string) : M unit := mret tt.

(** The WKT text exported for EPSG:4326 (abbreviated). *)
Definition wkt_EPSG_4326 : string := "GEOGCS[WGS 84]".

Definition array_to_raster (array : ndarray)
    (destination_file input_raster_file : string) : M unit :=
  source_raster ← gdal_Open input_raster_file;
  src ← deref source_raster;
  let '(upper_left_x, x_size, x_rotation, upper_left_y, y_rotation, y_size) :=
    GeoTransform src in
  let x_pixels := RasterXSize src in
  let y_pixels := RasterYSize src in
  let x_min := upper_left_x in
  let y_max := upper_left_y in
  let wkt_projection := Projection src in
  dataset ← driver_Create destination_file x_pixels y_pixels 1 GDT_Float32 [];
  h ← deref dataset;
  SetGeoTransform h (x_min, x_size, 0, y_max, 0, y_size)%Q;;
  SetProjection h wkt_projection;;
  WriteArray h array;;
  FlushCache h.

Definition array2raster (newRasterfn : string) (rasterOrigin : list Q)
    (pixelWidth pixelHeight : Q) (array : ndarray) : M unit :=
  let cols := Z.of_nat (ncols array) in
  let rows := Z.of_nat (nrows array) in
  originX ← lift (index rasterOrigin 0);
  originY ← lift (index rasterOrigin 1);
  outRaster ← driver_Create newRasterfn cols rows 1 GDT_Float64
                ["COMPRESS=PACKBITS"];
  h ← deref outRaster;
  SetGeoTransform h (originX, pixelWidth, 0, originY, 0, pixelHeight)%Q;;
  SetProjection h wkt_EPSG_4326;;
  WriteArray h (flipud array);;
  FlushCache h.

End Writers.

(** ** initialization *)

(** What [config.configuration] hands over: the [paths] entries read here,
    and the [param] dictionary. *)
Record Paths : Type := mk_Paths {
  inputs : list string;
  input_stats : string
}.

Inductive Value : Type :=
  | VArray (a : list Q)
  | VGeoRef (g : GeoRef)
  | VOther (s : string).

(** Lines 20-26: every input exists and is named [*.tif]. *)
Fixpoint check_inputs (l : list string) : M unit :=
  match l with
  | [] => mret tt
  | input_file :: rest =>
      isfile ← os_path_isfile input_file;
      (if negb isfile then
         print ("File does not exist: " ++ input_file);; sys_exit 0
       else if negb (endswith input_file ".tif") then
         print ("File is not raster: " ++ input_file);; sys_exit 0
       else mret tt);;
      check_inputs rest
  end.

(** [(a != b).any()] on arrays of one shape. *)
Definition ne_any (a b : list Q) : bool :=
  existsb (fun p => negb (Qeq_bool (fst p) (snd p))) (zip a b).

(** The bounding box of a dataset (line 32), as (north, east, south, west). *)
Definition bounding_box (d : Dataset) : list Q :=
  let '(upper_left_x, x_size, x_rotation, upper_left_y, y_rotation, y_size) :=
    GeoTransform d in
  [upper_left_y;
   upper_left_x + x_size * inject_Z (RasterXSize d);
   upper_left_y + y_size * inject_Z (RasterYSize d);
   upper_left_x]%Q.

(** Lines 29-42.  [old] holds [Crd_all_old], [x_size_old] and [y_size_old],
    which are unbound until the first file has been seen. *)
Fixpoint check_scope (first : string) (l : list string)
    (old : option (list Q * Q * Q)) (param : gmap string Value)
  : M (gmap string Value) :=
  match l with
  | [] => mret param
  | input_file :: rest =>
      dataset ← gdal_Open input_file;
      d ← deref dataset;
      let '(upper_left_x, x_size, x_rotation, upper_left_y, y_rotation, y_size) :=
        GeoTransform d in
      let Crd_all := bounding_box d in
      old' ← (if String.eqb input_file first then
                mret (Some (Crd_all, x_size, y_size))
              else
                match old with
                | None => raise UnboundLocalError
                | Some (Crd_all_old, x_size_old, y_size_old) =>
                    if ne_any Crd_all_old Crd_all
                       || negb (Qeq_bool x_size_old x_size)
                       || negb (Qeq_bool y_size_old y_size)
                    then print "Not the same scope / resolution!";; sys_exit 0
                    else mret old
                end);
      let param1 := <["Crd_all" := VArray Crd_all]> param in
      let res_desired := [Qabs x_size; Qabs y_size] in
      let param2 := <["res_desired" := VArray res_desired]> param1 in
      G ← lift (calc_geotiff Crd_all res_desired);
      let param3 := <["GeoRef" := VGeoRef G]> param2 in
      check_scope first rest old' param3
  end.

Definition stats_index : list string :=
  ["map_parts_total"; "output_raster_columns"; "output_raster_rows";
   "ref_part_name"; "size_max"; "std_max";
   "max_no_of_cl_ref"; "max_no_of_cl_total"].

(** [df.to_csv(path, sep=';', decimal=',')] *)
Definition to_csv (columns index : list string) (path sep decimal : string)
  : M unit :=
  fun w => (Ok tt, mk_World (<[path := CsvFile sep decimal columns index]> (files w))
                     (stdout w)).

Definition initialization (paths : Paths) (param : gmap string Value)
  : M (Paths * gmap string Value) :=
  timecheck "Start";;
  (if (length (inputs paths) =? 0)%nat then
     print "No input file given!";; sys_exit 0
   else mret tt);;
  check_inputs (inputs paths);;
  param' ← check_scope (default "" (head (inputs paths))) (inputs paths) None param;
  stats_exist ← os_path_exists (input_stats paths);
  (if negb stats_exist then
     to_csv ["value"] stats_index (input_stats paths) ";" ","
   else mret tt);;
  timecheck "End";;
  mret (paths, param').

(** ** create_voronoi_polygons *)

(** What [scipy.spatial.Voronoi] returns, as far as it is read here: the
    Voronoi vertices, and for every ridge the indices of its vertices, where
    -1 stands for a vertex at infinity. *)
Record VoronoiDiagram : Type := mk_VoronoiDiagram {
  vertices : list (Q * Q);
  ridge_vertices : list (list Z)
}.

(** [a[i]] for an integer index of either sign: a negative index counts
    from the end. *)
Definition np_index {A : Type} (a : list A) (i : Z) : result A :=
  let n := Z.of_nat (length a) in
  if (0 <=? i)%Z then index a (Z.to_nat i)
  else if (0 <=? n + i)%Z then index a (Z.to_nat (n + i))
  else Raise IndexError.

Fixpoint traverse {A B : Type} (f : A -> result B) (l : list A) : result (list B) :=
  match l with
  | [] => Ok []
  | x :: rest => y ← f x; ys ← traverse f rest; Ok (y :: ys)
  end.

Section Voronoi.

(** The tessellation and [shapely.ops.polygonize] are collaborators. *)
Variable Voronoi : list (Q * Q) -> result VoronoiDiagram.
Variable polygonize : list (list (Q * Q)) -> list Geometry.

Definition create_voronoi_polygons (points_list : list (Q * Q))
  : result (list Geometry) :=
  voronoi_polygons ← Voronoi points_list;
  lines ← traverse (fun line => traverse (np_index (vertices voronoi_polygons)) line)
            (ridge_vertices voronoi_polygons);
  Ok (polygonize lines).

End Voronoi.

(** * Specification-side definitions *)



(** The same counts in double arithmetic, from the two entries of
    [res_desired]: the difference and the quotient are each rounded to the
    nearest double before the floor is taken. *)
Definition grid_rows (north south res0 : Q) : Z :=
  Qfloor (round64 (Qabs (round64 (south - north)) / res0)).

Definition grid_cols (east west res1 : Q) : Z :=
  Qfloor (round64 (Qabs (round64 (west - east)) / res1)).

(** The transform of a mask raster maps pixel (0, 0) to (west, north) of
    the region box. *)
Definition origin_north_west (Crd_reg : list Q) (p : Profile) : Prop :=
  exists north west,
    Crd_reg !! 0%nat = Some north /\ Crd_reg !! 3%nat = Some west
    /\ (aff_c (transform p) == west)%Q /\ (aff_f (transform p) == north)%Q.

(** The horizontal and the vertical pixel size of a dataset, signed. *)
Definition pixel_sizes (d : Dataset) : Q * Q :=
  let '(_, x_size, _, _, _, y_size) := GeoTransform d in (x_size, y_size).

(** Two datasets share scope and resolution: equal bounding boxes and equal
    pixel sizes, componentwise. *)
Definition same_scope (d0 d : Dataset) : Prop :=
  Forall2 Qeq (bounding_box d0) (bounding_box d)
  /\ (fst (pixel_sizes d0) == fst (pixel_sizes d))%Q
  /\ (snd (pixel_sizes d0) == snd (pixel_sizes d))%Q.

(** The fatal validation failures of the spec. *)
Definition validation_failure (fs : gmap string File) (l : list string) : Prop :=
  l = []
  \/ (exists f, f ∈ l /\ fs !! f = None)
  \/ (exists f, f ∈ l /\ endswith f ".tif" = false)
  \/ (exists first f d0 d,
        head l = Some first /\ f ∈ l
        /\ fs !! first = Some (RasterFile d0) /\ fs !! f = Some (RasterFile d)
        /\ ~ same_scope d0 d).

(** * Auxiliary definitions for the proofs *)

(** The grid of ones after masking. *)
Definition masked_ones (inside : nat -> nat -> bool) (r c : nat) : ndarray :=
  mk_ndarray r c
    (imap (fun (i : nat) (row : list Q) =>
             imap (fun (j : nat) (x : Q) => if inside i j then x else 0%Q) row)
          (replicate r (replicate c 1%Q))).

(** What the loop of [check_scope] remembers of the first file. *)
Definition scope (d : Dataset) : list Q * Q * Q :=
  (bounding_box d, fst (pixel_sizes d), snd (pixel_sizes d)).

(** The test of line 37. *)
Definition mismatch (old : list Q * Q * Q) (d : Dataset) : bool :=
  let '(Crd_all_old, x_size_old, y_size_old) := old in
  ne_any Crd_all_old (bounding_box d)
  || negb (Qeq_bool x_size_old (fst (pixel_sizes d)))
  || negb (Qeq_bool y_size_old (snd (pixel_sizes d))).

(** The georeference that lines 41-42 derive from one dataset. *)
Definition georef_of (d : Dataset) : GeoRef :=
  let '(upper_left_x, x_size, _, upper_left_y, _, y_size) := GeoTransform d in
  {| RasterOrigin := [upper_left_x; upper_left_y];
     RasterOrigin_alt :=
       [upper_left_x; upper_left_y + y_size * inject_Z (RasterYSize d)]%Q;
     pixelWidth := Qabs y_size;
     pixelHeight := (- Qabs x_size)%Q |}.

(** The three entries that one pass of the loop stores in [param]. *)
Definition scope_params (d : Dataset) (param : gmap string Value)
  : gmap string Value :=
  <["GeoRef" := VGeoRef (georef_of d)]>
    (<["res_desired" :=
         VArray [Qabs (fst (pixel_sizes d)); Qabs (snd (pixel_sizes d))]]>
       (<["Crd_all" := VArray (bounding_box d)]> param)).

(** The [param] dictionary after the files of [l] have been processed. *)
Fixpoint fold_params (fs : gmap string File) (l : list string)
    (param : gmap string Value) : gmap string Value :=
  match l with
  | [] => param
  | f :: rest =>
      match fs !! f with
      | Some (RasterFile d) => fold_params fs rest (scope_params d param)
      | _ => param
      end
  end.

(** The worlds a run passes through. *)
Definition start_world (w : World) : World :=
  mk_World (files w) (stdout w ++ [Timecheck "Start"]).

Definition exit_scope (w : World) : World :=
  mk_World (files w) (stdout w ++ [Print "Not the same scope / resolution!"]).

Definition end_world (paths : Paths) (w : World) : World :=
  mk_World
    (match files w !! input_stats paths with
     | Some _ => files w
     | None => <[input_stats paths := CsvFile ";" "," ["value"] stats_index]> (files w)
     end)
    (stdout w ++ [Timecheck "End"]).

(** ** Example inputs *)

Definition raster (gt : Q * Q * Q * Q * Q * Q) (xsize ysize : Z) : Dataset :=
  mk_Dataset gt xsize ysize 1 GDT_Float32 [] ""
    (zeros (Z.to_nat ysize) (Z.to_nat xsize)).

(** Pixels 2 wide and 1 high over the box (north=10, east=10, south=0,
    west=0), and square pixels over the same box. *)
Definition wide_pixels : Dataset := raster (0, 2, 0, 10, 0, -1)%Q 5 10.
Definition square_pixels : Dataset := raster (0, 1, 0, 10, 0, -1)%Q 10 10.

Definition example_world : World :=
  mk_World (<["a.tif" := RasterFile wide_pixels]>
             (<["b.tif" := RasterFile square_pixels]>
                (<["c.tif" := RasterFile wide_pixels]> ∅))) [].

Definition example_array : ndarray := mk_ndarray 2 2 [[1; 2]; [3; 4]]%Q.


(** A geometry engine that accepts everything and finds every pixel
    covered, and a square. *)
Definition all_inside : Affine -> Z -> Z -> list Geometry -> result (nat -> nat -> bool) :=
  fun _ _ _ _ => Ok (fun _ _ => true).

Definition example_square : Geometry :=
  Polygon [(0, 0); (10, 0); (10, 10); (0, 10); (0, 0)]%Q.

(** * Properties *)

(** ** Double arithmetic *)

Lemma round_half_even_nonneg (q : Q) : (0 <= q)%Q -> (0 <= round_half_even q)%Z.
Proof.
  intros Hq. unfold round_half_even.
  assert (Hf : (0 <= Qfloor q)%Z)
    by (change 0%Z with (Qfloor 0); now apply Qfloor_resp_le).
  destruct (q - inject_Z (Qfloor q) ?= 1 # 2)%Q; [|lia|lia].
  destruct (Z.even (Qfloor q)); lia.
Qed.

Lemma round64_nonneg (q : Q) : (0 <= q)%Q -> (0 <= round64 q)%Q.
Proof.
  intros Hq. unfold round64. destruct (Qeq_bool q 0); [apply Qle_refl|].
  assert (Hp : (0 < 2 ^ (binade q - 52))%Q) by (now apply Qpower_0_lt).
  apply Qmult_le_0_compat; [|now apply Qlt_le_weak].
  change 0%Q with (inject_Z 0). rewrite <- Zle_Qle.
  apply round_half_even_nonneg.
  apply Qle_shift_div_l; [exact Hp|]. now rewrite Qmult_0_l.
Qed.

Lemma py_int_floor (q : Q) : (0 <= q)%Q -> py_int (Finite q) = Ok (Qfloor q).
Proof.
  destruct q as [n d]. unfold Qle, py_int, Qfloor. simpl. intros Hn.
  f_equal. apply Z.quot_div_nonneg; lia.
Qed.

Lemma Qfloor_nonneg (q : Q) : (0 <= q)%Q -> (0 <= Qfloor q)%Z.
Proof.
  intros Hq. change 0%Z with (Qfloor 0). now apply Qfloor_resp_le.
Qed.

Lemma np_div_pos (x y : Q) : (0 < y)%Q -> np_div x y = Finite (round64 (x / y)).
Proof.
  intros Hy. unfold np_div.
  destruct (Qeq_bool y 0) eqn:E; [|reflexivity].
  apply Qeq_bool_iff in E. rewrite E in Hy.
  exfalso. exact (Qlt_irrefl 0 Hy).
Qed.

Lemma Qabs_div_nonneg (x y : Q) : (0 < y)%Q -> (0 <= Qabs x / y)%Q.
Proof.
  intros Hy. apply Qle_shift_div_l; [exact Hy|].
  rewrite Qmult_0_l. apply Qabs_nonneg.
Qed.

Lemma grid_rows_nonneg (north south res0 : Q) :
  (0 < res0)%Q -> (0 <= grid_rows north south res0)%Z.
Proof.
  intros H. apply Qfloor_nonneg, round64_nonneg, Qabs_div_nonneg, H.
Qed.

Lemma grid_cols_nonneg (east west res1 : Q) :
  (0 < res1)%Q -> (0 <= grid_cols east west res1)%Z.
Proof.
  intros H. apply Qfloor_nonneg, round64_nonneg, Qabs_div_nonneg, H.
Qed.

Lemma np_ones_ok (M N : Z) :
  (0 <= M)%Z -> (0 <= N)%Z ->
  np_ones M N = Ok (mk_ndarray (Z.to_nat M) (Z.to_nat N)
                      (replicate (Z.to_nat M) (replicate (Z.to_nat N) 1%Q))).
Proof.
  intros HM HN. unfold np_ones.
  destruct (M <? 0)%Z eqn:EM; [apply Z.ltb_lt in EM; lia|].
  destruct (N <? 0)%Z eqn:EN; [apply Z.ltb_lt in EN; lia|].
  reflexivity.
Qed.

(** ** calc_geotiff *)

(** On a four-entry box and a two-entry resolution [calc_geotiff] returns
    this dictionary. *)
Lemma calc_geotiff_ok (north east south west r0 r1 : Q) :
  calc_geotiff [north; east; south; west] [r0; r1] =
  Ok {| RasterOrigin := [west; north];
        RasterOrigin_alt := [west; south];
        pixelWidth := r1;
        pixelHeight := (- r0)%Q |}.
Proof. reflexivity. Qed.

(** ** calc_region *)

Lemma calc_region_grid_ok (north east south west res0 res1 : Q) :
  (0 < res0)%Q -> (0 < res1)%Q ->
  let M := grid_rows north south res0 in
  let N := grid_cols east west res1 in
  calc_region_grid [north; east; south; west] [res0; res1] =
  Ok (M, N,
      mk_ndarray (Z.to_nat M) (Z.to_nat N)
        (replicate (Z.to_nat M) (replicate (Z.to_nat N) 1%Q)),
      [west; south]).
Proof.
  intros H0 H1 M N. unfold calc_region_grid, np_sub.
  cbn [index lookup list_lookup mbind result_bind].
  rewrite (np_div_pos _ _ H0), (np_div_pos _ _ H1).
  rewrite (py_int_floor _ (round64_nonneg _ (Qabs_div_nonneg _ _ H0))).
  cbn [mbind result_bind].
  rewrite (py_int_floor _ (round64_nonneg _ (Qabs_div_nonneg _ _ H1))).
  cbn [mbind result_bind].
  fold (grid_rows north south res0) (grid_cols east west res1).
  rewrite np_ones_ok; [reflexivity | now apply grid_rows_nonneg
                      | now apply grid_cols_nonneg].
Qed.

Lemma calc_region_setup_ok (geometry : Geometry)
    (north east south west res0 res1 : Q) (G : GeoRef) :
  (0 < res0)%Q -> (0 < res1)%Q ->
  let M := grid_rows north south res0 in
  let N := grid_cols east west res1 in
  calc_region_setup geometry [north; east; south; west] [res0; res1] G =
  Ok ({| driver := "GTiff"; height := M; width := N; count := 1;
         dtype := "float64"; crs := "EPSG:4326";
         transform := from_origin west south (pixelWidth G) (pixelHeight G) |},
      mk_ndarray (Z.to_nat M) (Z.to_nat N)
        (replicate (Z.to_nat M) (replicate (Z.to_nat N) 1%Q)),
      calc_region_features geometry).
Proof.
  intros H0 H1 M N. unfold calc_region_setup.
  rewrite (calc_region_grid_ok north east south west _ _ H0 H1).
  reflexivity.
Qed.

Lemma wf_ones (r c : nat) (x : Q) :
  wf_ndarray (mk_ndarray r c (replicate r (replicate c x))).
Proof.
  split; simpl.
  - apply length_replicate.
  - apply Forall_replicate. apply length_replicate.
Qed.

Lemma wf_masked_ones inside r c : wf_ndarray (masked_ones inside r c).
Proof.
  split; cbn [masked_ones cells nrows ncols].
  - now rewrite length_imap, length_replicate.
  - apply Forall_forall. intros row Hrow.
    apply list_elem_of_lookup in Hrow as [i Hi].
    rewrite list_lookup_imap in Hi.
    destruct (replicate r (replicate c 1%Q) !! i) as [row0|] eqn:E;
      [|discriminate Hi].
    apply lookup_replicate in E as [-> _]. injection Hi as <-.
    now rewrite length_imap, length_replicate.
Qed.


(** [calc_region] with the in-memory raster of rasterio, for a positive
    resolution. *)
Lemma calc_region_rasterio
    (geometry_mask : Affine -> Z -> Z -> list Geometry -> result (nat -> nat -> bool))
    (geometry : Geometry) (north east south west res0 res1 : Q) (G : GeoRef) :
  (0 < res0)%Q -> (0 < res1)%Q ->
  let M := grid_rows north south res0 in
  let N := grid_cols east west res1 in
  calc_region (rasterio_mask geometry_mask) geometry
    [north; east; south; west] [res0; res1] G
  = if ((M <? 1) || (N <? 1))%Z then Raise RasterioIOError
    else match geometry_mask
                 (from_origin west south (pixelWidth G) (pixelHeight G))
                 M N (calc_region_features geometry) with
         | Raise e => Raise e
         | Ok inside => Ok (masked_ones inside (Z.to_nat M) (Z.to_nat N))
         end.
Proof.
  intros H0 H1 M N. unfold calc_region.
  rewrite (calc_region_setup_ok geometry north east south west _ _ G H0 H1).
  cbn [mbind result_bind]. unfold rasterio_mask, memfile_open.
  cbn [height width transform]. fold M N.
  destruct ((M <? 1) || (N <? 1))%Z; reflexivity.
Qed.




(** C3, as stated, fails: for the region box (north=10, east=5, south=5,
    west=0) the mask raster is anchored at (0, 5), the south-west corner,
    not at the north-west corner (0, 10). *)
Lemma calc_region_origin_not_north_west :
  exists profile A features,
    calc_region_setup (Polygon []) [10; 5; 5; 0]%Q [1; 1]%Q
      (mk_GeoRef [0; 10]%Q [0; 0]%Q 1 (-1)) = Ok (profile, A, features)
    /\ aff_f (transform profile) = 5%Q
    /\ ~ origin_north_west [10; 5; 5; 0]%Q profile.
Proof.
  eexists _, _, _. split; [reflexivity|]. split; [reflexivity|].
  intros (north & west & Hn & _ & _ & Hf). simpl in Hn.
  injection Hn as <-. simpl in Hf. discriminate Hf.
Qed.

(** C3, amended.  The mask raster of a region is georeferenced at the
    region's own south-west corner: its transform is
    [from_origin(west, south, pixelWidth, pixelHeight)] with the pixel sizes
    of the global georeference, so pixel (0, 0) lies at (west, south), a
    column is [pixelWidth] wide and a row advances by [- pixelHeight].  The
    origin of the global extent takes no part in it. *)
Theorem calc_region_georeferenced_south_west
    (mask_mask : Profile -> ndarray -> list Geometry -> result ndarray)
    (geometry : Geometry)
    (north east south west res_height res_width : Q) (G : GeoRef) :
  (0 < res_height)%Q -> (0 < res_width)%Q ->
  exists profile A,
    calc_region mask_mask geometry [north; east; south; west]
      [res_height; res_width] G
    = mask_mask profile A (calc_region_features geometry)
    /\ calc_region_setup geometry [north; east; south; west]
         [res_height; res_width] G
       = Ok (profile, A, calc_region_features geometry)
    /\ transform profile
       = from_origin west south (pixelWidth G) (pixelHeight G)
    /\ aff_c (transform profile) = west
    /\ aff_f (transform profile) = south
    /\ aff_a (transform profile) = pixelWidth G
    /\ aff_e (transform profile) = (- pixelHeight G)%Q
    /\ forall G' : GeoRef,
         pixelWidth G' = pixelWidth G -> pixelHeight G' = pixelHeight G ->
         calc_region_setup geometry [north; east; south; west]
           [res_height; res_width] G'
         = Ok (profile, A, calc_region_features geometry).
Proof.
  intros Hh Hw. unfold calc_region.
  rewrite (calc_region_setup_ok geometry north east south west _ _ G Hh Hw).
  eexists _, _. split; [reflexivity|]. split; [reflexivity|].
  repeat (split; [reflexivity|]).
  intros G' HW HH.
  rewrite (calc_region_setup_ok geometry north east south west _ _ G' Hh Hw).
  now rewrite HW, HH.
Qed.

Lemma calc_region_georeferenced_south_west_witness :
  exists profile A,
    calc_region (fun _ A _ => Ok A) (Polygon []) [10; 5; 5; 0]%Q [1; 1]%Q
      (mk_GeoRef [0; 10]%Q [0; 0]%Q 1 (-1))
    = Ok A
    /\ calc_region_setup (Polygon []) [10; 5; 5; 0]%Q [1; 1]%Q
         (mk_GeoRef [0; 10]%Q [0; 0]%Q 1 (-1))
       = Ok (profile, A, [Polygon []])
    /\ transform profile = from_origin 0 5 1 (-1)
    /\ aff_c (transform profile) = 0%Q
    /\ aff_f (transform profile) = 5%Q
    /\ aff_a (transform profile) = 1%Q
    /\ aff_e (transform profile) = (- -1)%Q
    /\ forall G' : GeoRef,
         pixelWidth G' = 1%Q -> pixelHeight G' = (-1)%Q ->
         calc_region_setup (Polygon []) [10; 5; 5; 0]%Q [1; 1]%Q G'
         = Ok (profile, A, [Polygon []]).
Proof.
  apply (calc_region_georeferenced_south_west (fun _ A _ => Ok A) (Polygon [])
           10 5 5 0 1 1 (mk_GeoRef [0; 10]%Q [0; 0]%Q 1 (-1))); reflexivity.
Defined.

(** C4.  The box (north=10, west=0, south=0, east=10) with resolution
    (1, 1) gives RasterOrigin = [0, 10], pixelWidth = 1 and
    pixelHeight = -1; for the region box (north=10, west=0, south=5,
    east=5), whatever the region geometry and the georeference, the mask
    that [calc_region] returns has 5 rows and 5 columns (the geometry
    engine accepting the features). *)
Theorem scenario_georef_and_mask_shape :
  (exists G,
     calc_geotiff [10; 10; 0; 0]%Q [1; 1]%Q = Ok G
     /\ RasterOrigin G = [0; 10]%Q
     /\ pixelWidth G = 1%Q
     /\ pixelHeight G = (-1)%Q)
  /\ (forall (geometry_mask :
               Affine -> Z -> Z -> list Geometry -> result (nat -> nat -> bool))
            (geometry : Geometry) (G : GeoRef) (inside : nat -> nat -> bool),
        geometry_mask (from_origin 0 5 (pixelWidth G) (pixelHeight G)) 5%Z 5%Z
          (calc_region_features geometry) = Ok inside ->
        exists A,
          calc_region (rasterio_mask geometry_mask) geometry
            [10; 5; 5; 0]%Q [1; 1]%Q G = Ok A
          /\ shape A = [5; 5]%Z
          /\ length (cells A) = 5%nat
          /\ Forall (fun row => length row = 5%nat) (cells A)).
Proof.
  split.
  - eexists. repeat split.
  - intros geometry_mask geometry G inside Hmask.
    rewrite (calc_region_rasterio geometry_mask geometry 10 5 5 0 1 1 G)
      by reflexivity.
    replace (grid_rows 10 5 1) with 5%Z by (vm_compute; reflexivity).
    replace (grid_cols 5 0 1) with 5%Z by (vm_compute; reflexivity).
    cbn [Z.ltb Z.compare orb]. rewrite Hmask.
    eexists. split; [reflexivity|]. split; [reflexivity|].
    destruct (wf_masked_ones inside 5 5) as [Hlen Hrows].
    split; [exact Hlen | exact Hrows].
Qed.

Lemma scenario_georef_and_mask_shape_witness :
  exists A,
    calc_region (rasterio_mask all_inside) example_square
      [10; 5; 5; 0]%Q [1; 1]%Q (mk_GeoRef [0; 10]%Q [0; 0]%Q 1 (-1)) = Ok A
    /\ shape A = [5; 5]%Z
    /\ length (cells A) = 5%nat
    /\ Forall (fun row => length row = 5%nat) (cells A).
Proof.
  destruct scenario_georef_and_mask_shape as [_ Hregion].
  apply (Hregion all_inside example_square
           (mk_GeoRef [0; 10]%Q [0; 0]%Q 1 (-1)) (fun _ _ => true)).
  reflexivity.
Defined.

(** ** The raster writers *)

Lemma overlay_row_full (s d : list Q) : length s = length d -> overlay_row s d = s.
Proof.
  intros H. unfold overlay_row. rewrite drop_ge by lia. apply app_nil_r.
Qed.

Lemma overlay_full (src dst : list (list Q)) :
  Forall2 (fun s d => length s = length d) src dst -> overlay src dst = src.
Proof.
  intros H. unfold overlay.
  rewrite (Forall2_length _ _ _ H), drop_all, app_nil_r.
  induction H as [|s d src dst Hsd _ IH]; simpl; [reflexivity|].
  now rewrite (overlay_row_full _ _ Hsd), IH.
Qed.

Lemma overlay_lookup (src dst : list (list Q)) (i j : nat) (row drow : list Q) (x : Q) :
  src !! i = Some row -> dst !! i = Some drow -> row !! j = Some x ->
  exists brow, overlay src dst !! i = Some brow /\ brow !! j = Some x.
Proof.
  intros Hs Hd Hx. exists (overlay_row row drow). split.
  - unfold overlay. rewrite lookup_app_l.
    + rewrite lookup_zip_with, Hs, Hd. reflexivity.
    + rewrite length_zip_with. apply lookup_lt_Some in Hs, Hd. lia.
  - unfold overlay_row. rewrite lookup_app_l; [exact Hx|].
    now apply lookup_lt_Some in Hx.
Qed.

Lemma update_dataset_insert (h : string) (f : Dataset -> result Dataset)
    (d d' : Dataset) (m : gmap string File) (out : list Event) :
  f d = Ok d' ->
  update_dataset h f (mk_World (<[h := RasterFile d]> m) out)
  = (Ok tt, mk_World (<[h := RasterFile d']> m) out).
Proof.
  intros Hf. unfold update_dataset. simpl.
  rewrite lookup_insert_eq, Hf. now rewrite insert_insert_eq.
Qed.

Lemma array2raster_run rf fn ox oy rest pw ph a w :
  (0 < nrows a)%nat -> (0 < ncols a)%nat ->
  array2raster rf fn (ox :: oy :: rest) pw ph a w =
  (Ok tt, mk_World (<[fn := RasterFile
     (mk_Dataset (ox, pw, 0, oy, 0, ph)%Q (Z.of_nat (ncols a)) (Z.of_nat (nrows a)) 1
        GDT_Float64 ["COMPRESS=PACKBITS"] wkt_EPSG_4326
        (mk_ndarray (nrows a) (ncols a)
           (overlay (map (map (gdal_cast rf GDT_Float64)) (reverse (cells a)))
                    (replicate (nrows a) (replicate (ncols a) 0%Q)))))]> (files w)) (stdout w)).
Proof.
  intros Hr Hc. unfold array2raster, lift, index. simpl.
  unfold mbind, M_bind at 1 2 3. unfold driver_Create.
  destruct ((Z.of_nat (ncols a) <? 1) || (Z.of_nat (nrows a) <? 1))%Z eqn:E.
  { apply orb_true_iff in E. destruct E as [E|E]; apply Z.ltb_lt in E; lia. }
  unfold deref, mret, M_ret. unfold M_bind.
  unfold SetGeoTransform. erewrite update_dataset_insert by reflexivity.
  unfold SetProjection. erewrite update_dataset_insert by reflexivity.
  unfold WriteArray. simpl.
  erewrite update_dataset_insert.
  2:{ simpl. rewrite !Z.gtb_ltb, !Z.ltb_irrefl. simpl. rewrite !Nat2Z.id. reflexivity. }
  reflexivity.
Qed.

Lemma map_gdal_cast_float64 rf (l : list (list Q)) :
  map (map (gdal_cast rf GDT_Float64)) l = l.
Proof.
  induction l as [|row l IH]; simpl; [reflexivity|].
  rewrite IH. f_equal. induction row as [|x row IHr]; simpl; [reflexivity|].
  now rewrite IHr.
Qed.

Lemma overlay_zeros (r c : nat) (l : list (list Q)) :
  length l = r -> Forall (fun row => length row = c) l ->
  overlay l (replicate r (replicate c 0%Q)) = l.
Proof.
  intros Hl Hrows. apply overlay_full. simpl. subst r.
  induction Hrows as [|row l Hrow _ IH]; simpl; constructor.
  - now rewrite length_replicate.
  - exact IH.
Qed.

(** C8.  For a well-formed, non-empty array, [array2raster] writes one file:
    a raster with a single 64-bit floating-point band whose content is
    [flipud(array)] (row [i] of the band is row [rows - 1 - i] of the array),
    stamped with the supplied origin and the supplied signed pixel sizes. *)
Theorem array2raster_writes_flipped rf fn ox oy rest pw ph a w :
  wf_ndarray a -> (0 < nrows a)%nat -> (0 < ncols a)%nat ->
  exists w',
    array2raster rf fn (ox :: oy :: rest) pw ph a w = (Ok tt, w')
    /\ stdout w' = stdout w
    /\ files w' = <[fn := RasterFile
         (mk_Dataset (ox, pw, 0, oy, 0, ph)%Q (Z.of_nat (ncols a))
            (Z.of_nat (nrows a)) 1 GDT_Float64 ["COMPRESS=PACKBITS"]
            wkt_EPSG_4326 (flipud a))]> (files w)
    /\ forall i : nat, (i < nrows a)%nat ->
         cells (flipud a) !! i = cells a !! (nrows a - 1 - i)%nat.
Proof.
  intros [Hlen Hrows] Hr Hc. eexists. split.
  { apply array2raster_run; assumption. }
  simpl. split; [reflexivity|]. split.
  - rewrite map_gdal_cast_float64, overlay_zeros.
    + reflexivity.
    + now rewrite length_reverse.
    + now apply Forall_reverse.
  - intros i Hi. unfold flipud. simpl. rewrite reverse_lookup by lia.
    f_equal. lia.
Qed.

Lemma array_to_raster_run rf a dest src_path src w :
  files w !! src_path = Some (RasterFile src) ->
  (1 <= RasterXSize src)%Z -> (1 <= RasterYSize src)%Z ->
  (Z.of_nat (ncols a) <= RasterXSize src)%Z ->
  (Z.of_nat (nrows a) <= RasterYSize src)%Z ->
  array_to_raster rf a dest src_path w =
  (Ok tt, mk_World (<[dest := RasterFile
     (mk_Dataset
        (let '(ulx, xs, _, uly, _, ys) := GeoTransform src in (ulx, xs, 0, uly, 0, ys)%Q)
        (RasterXSize src) (RasterYSize src) 1 GDT_Float32 [] (Projection src)
        (mk_ndarray (Z.to_nat (RasterYSize src)) (Z.to_nat (RasterXSize src))
           (overlay (map (map rf) (cells a))
              (replicate (Z.to_nat (RasterYSize src))
                 (replicate (Z.to_nat (RasterXSize src)) 0%Q)))))]> (files w))
     (stdout w)).
Proof.
  intros Hsrc HX HY Hc Hr. unfold array_to_raster.
  unfold mbind, M_bind at 1 2. unfold gdal_Open. rewrite Hsrc. simpl.
  destruct (GeoTransform src) as [[[[[ulx xs] xr] uly] yr] ys].
  unfold M_bind at 1 2. unfold driver_Create.
  destruct ((RasterXSize src <? 1) || (RasterYSize src <? 1))%Z eqn:E.
  { apply orb_true_iff in E. destruct E as [E|E]; apply Z.ltb_lt in E; lia. }
  unfold deref, mret, M_ret. unfold M_bind.
  unfold SetGeoTransform. erewrite update_dataset_insert by reflexivity.
  unfold SetProjection. erewrite update_dataset_insert by reflexivity.
  unfold WriteArray. simpl.
  erewrite update_dataset_insert.
  2:{ simpl. rewrite !Z.gtb_ltb.
      destruct (RasterXSize src <? Z.of_nat (ncols a))%Z eqn:E1;
        [apply Z.ltb_lt in E1; lia|].
      destruct (RasterYSize src <? Z.of_nat (nrows a))%Z eqn:E2;
        [apply Z.ltb_lt in E2; lia|].
      reflexivity. }
  reflexivity.
Qed.

Lemma lookup_map {A B : Type} (f : A -> B) (l : list A) (i : nat) :
  map f l !! i = f <$> l !! i.
Proof.
  revert i. induction l as [|x l IH]; intros [|i]; simpl; try reflexivity.
  apply IH.
Qed.

(** C10.  [array_to_raster] writes the array in its own row order: entry
    (i, j) of the array is stored, converted to the 32-bit band type, at
    entry (i, j) of the band, so row 0 of the array is the first
    (northernmost) row of the raster; there is no vertical flip.  The array
    has to fit the reference raster, whose size the new raster takes. *)
Theorem array_to_raster_keeps_row_order rf a dest src_path src w :
  files w !! src_path = Some (RasterFile src) ->
  wf_ndarray a ->
  (1 <= RasterXSize src)%Z -> (1 <= RasterYSize src)%Z ->
  (Z.of_nat (ncols a) <= RasterXSize src)%Z ->
  (Z.of_nat (nrows a) <= RasterYSize src)%Z ->
  exists w' d,
    array_to_raster rf a dest src_path w = (Ok tt, w')
    /\ files w' = <[dest := RasterFile d]> (files w)
    /\ RasterCount d = 1%Z
    /\ DataType d = GDT_Float32
    /\ (forall (i j : nat) (row : list Q) (x : Q),
          cells a !! i = Some row -> row !! j = Some x ->
          exists band_row,
            cells (Band1 d) !! i = Some band_row
            /\ band_row !! j = Some (rf x))
    /\ (Z.of_nat (nrows a) = RasterYSize src ->
        Z.of_nat (ncols a) = RasterXSize src ->
        cells (Band1 d) = map (map rf) (cells a)).
Proof.
  intros Hsrc [Hlen Hrows] HX HY Hc Hr. eexists _, _. split.
  { apply (array_to_raster_run rf a dest src_path src w); assumption. }
  cbn [files Band1 cells RasterCount DataType].
  split; [reflexivity|]. split; [reflexivity|]. split; [reflexivity|]. split.
  - intros i j row x Hi Hj.
    apply (overlay_lookup _ _ i j (map rf row) (replicate (Z.to_nat (RasterXSize src)) 0%Q)).
    + now rewrite lookup_map, Hi.
    + apply lookup_replicate_2. apply lookup_lt_Some in Hi. lia.
    + now rewrite lookup_map, Hj.
  - intros Hy Hx. apply overlay_full.
    rewrite <- Hy, <- Hx, !Nat2Z.id, <- Hlen. clear Hlen Hy Hc Hr.
    induction Hrows as [|row l Hrow _ IH]; simpl; constructor.
    + now rewrite length_map, length_replicate.
    + exact IH.
Qed.

Lemma array2raster_writes_flipped_witness :
  exists w',
    array2raster (fun x => x) "out.tif" [0; 10]%Q 1 (-1) example_array example_world
    = (Ok tt, w')
    /\ stdout w' = stdout example_world
    /\ files w' = <["out.tif" := RasterFile
         (mk_Dataset (0, 1, 0, 10, 0, -1)%Q 2 2 1 GDT_Float64 ["COMPRESS=PACKBITS"]
            wkt_EPSG_4326 (flipud example_array))]> (files example_world)
    /\ forall i : nat, (i < 2)%nat ->
         cells (flipud example_array) !! i = cells example_array !! (2 - 1 - i)%nat.
Proof.
  apply (array2raster_writes_flipped (fun x => x) "out.tif" 0 10 [] 1 (-1)
           example_array example_world).
  - split; [reflexivity | repeat constructor].
  - simpl. lia.
  - simpl. lia.
Defined.

Lemma array_to_raster_keeps_row_order_witness :
  exists w' d,
    array_to_raster (fun x => x) example_array "out.tif" "a.tif" example_world
    = (Ok tt, w')
    /\ files w' = <["out.tif" := RasterFile d]> (files example_world)
    /\ RasterCount d = 1%Z
    /\ DataType d = GDT_Float32
    /\ (forall (i j : nat) (row : list Q) (x : Q),
          cells example_array !! i = Some row -> row !! j = Some x ->
          exists band_row,
            cells (Band1 d) !! i = Some band_row /\ band_row !! j = Some x)
    /\ (Z.of_nat (nrows example_array) = RasterYSize wide_pixels ->
        Z.of_nat (ncols example_array) = RasterXSize wide_pixels ->
        cells (Band1 d) = map (map (fun x => x)) (cells example_array)).
Proof.
  apply (array_to_raster_keeps_row_order (fun x => x) example_array "out.tif"
           "a.tif" wide_pixels example_world).
  - reflexivity.
  - split; [reflexivity | repeat constructor].
  - simpl. lia.
  - simpl. lia.
  - simpl. lia.
  - simpl. lia.
Defined.

(** ** initialization *)

Lemma check_scope_cons first f rest old param w d :
  files w !! f = Some (RasterFile d) ->
  check_scope first (f :: rest) old param w =
  if String.eqb f first then
    check_scope first rest (Some (scope d)) (scope_params d param) w
  else
    match old with
    | None => (Raise UnboundLocalError, w)
    | Some o =>
        if mismatch o d then (Raise (SystemExit 0), exit_scope w)
        else check_scope first rest old (scope_params d param) w
    end.
Proof.
  intros Hf. cbn [check_scope]. unfold mbind at 1, M_bind at 1.
  unfold gdal_Open. rewrite Hf. unfold mbind at 1, M_bind at 1. cbn [deref mret M_ret].
  unfold scope_params, georef_of, scope, mismatch, pixel_sizes, bounding_box.
  destruct (GeoTransform d) as [[[[[ulx xs] xr] uly] yr] ys]. cbn [fst snd].
  destruct (String.eqb f first).
  - reflexivity.
  - destruct old as [[[Co xo] yo]|]; [|reflexivity].
    destruct (ne_any _ _ || _ || _); reflexivity.
Qed.

Lemma check_scope_not_raster first f rest old param w :
  (forall d, files w !! f <> Some (RasterFile d)) ->
  check_scope first (f :: rest) old param w = (Raise AttributeError, w).
Proof.
  intros Hf. cbn [check_scope]. unfold mbind at 1, M_bind at 1.
  unfold gdal_Open.
  destruct (files w !! f) as [[d| |]|] eqn:E; try reflexivity.
  now destruct (Hf d).
Qed.

Lemma ne_any_false (a b : list Q) :
  length a = length b -> (ne_any a b = false <-> Forall2 Qeq a b).
Proof.
  revert b. induction a as [|x a IH]; intros [|y b] Hlen; try discriminate Hlen.
  - split; [constructor | reflexivity].
  - injection Hlen as Hlen. unfold ne_any in *. cbn [zip zip_with existsb fst snd].
    rewrite orb_false_iff, negb_false_iff, Qeq_bool_iff, (IH b Hlen).
    split.
    + intros [Hxy Hab]. now constructor.
    + intros H. inversion H; subst. now split.
Qed.

Lemma length_bounding_box (d : Dataset) : length (bounding_box d) = 4%nat.
Proof.
  unfold bounding_box.
  now destruct (GeoTransform d) as [[[[[ulx xs] xr] uly] yr] ys].
Qed.

Lemma mismatch_false (d0 d : Dataset) :
  mismatch (scope d0) d = false <-> same_scope d0 d.
Proof.
  unfold mismatch, scope, same_scope.
  rewrite !orb_false_iff, !negb_false_iff, !Qeq_bool_iff, ne_any_false.
  - tauto.
  - now rewrite !length_bounding_box.
Qed.

Lemma mismatch_true (d0 d : Dataset) :
  mismatch (scope d0) d = true <-> ~ same_scope d0 d.
Proof.
  rewrite <- mismatch_false. destruct (mismatch (scope d0) d); split; try easy.
Qed.

Lemma same_scope_refl (d : Dataset) : same_scope d d.
Proof.
  unfold same_scope. split; [|split; reflexivity].
  induction (bounding_box d); constructor; [reflexivity | assumption].
Qed.

Lemma check_scope_same first l param w d0 :
  files w !! first = Some (RasterFile d0) ->
  (forall f, f ∈ l -> exists d, files w !! f = Some (RasterFile d) /\ same_scope d0 d) ->
  check_scope first l (Some (scope d0)) param w
  = (Ok (fold_params (files w) l param), w).
Proof.
  intros Hfirst. revert param.
  induction l as [|f rest IH]; intros param Hall; [reflexivity|].
  destruct (Hall f) as (d & Hd & Hsame); [left|].
  rewrite (check_scope_cons _ _ _ _ _ _ d Hd). cbn [fold_params]. rewrite Hd.
  assert (Hrest : forall g, g ∈ rest ->
            exists d, files w !! g = Some (RasterFile d) /\ same_scope d0 d)
    by (intros g Hg; apply Hall; now right).
  destruct (String.eqb f first) eqn:E.
  - apply String.eqb_eq in E. subst f. rewrite Hfirst in Hd. injection Hd as <-.
    now apply IH.
  - apply mismatch_false in Hsame. rewrite Hsame. now apply IH.
Qed.

Lemma check_scope_differs first l param w d0 :
  files w !! first = Some (RasterFile d0) ->
  (forall f, f ∈ l -> exists d, files w !! f = Some (RasterFile d)) ->
  (exists f d, f ∈ l /\ files w !! f = Some (RasterFile d) /\ ~ same_scope d0 d) ->
  check_scope first l (Some (scope d0)) param w
  = (Raise (SystemExit 0), exit_scope w).
Proof.
  intros Hfirst. revert param.
  induction l as [|f rest IH]; intros param Hall (g & dg & Hg & Hdg & Hne).
  { inversion Hg. }
  destruct (Hall f) as (d & Hd); [left|].
  rewrite (check_scope_cons _ _ _ _ _ _ d Hd).
  assert (Hrest : forall g, g ∈ rest -> exists d, files w !! g = Some (RasterFile d))
    by (intros h Hh; apply Hall; now right).
  assert (Hin : same_scope d0 d -> exists f d, f ∈ rest /\ files w !! f = Some (RasterFile d)
                  /\ ~ same_scope d0 d).
  { intros Hsame. apply elem_of_cons in Hg as [->|Hg].
    - rewrite Hd in Hdg. injection Hdg as <-. now destruct Hne.
    - now exists g, dg. }
  destruct (String.eqb f first) eqn:E.
  - apply String.eqb_eq in E. subst f. rewrite Hfirst in Hd. injection Hd as <-.
    apply IH; [exact Hrest|]. apply Hin, same_scope_refl.
  - destruct (mismatch (scope d0) d) eqn:Em; [reflexivity|].
    apply mismatch_false in Em. apply IH; [exact Hrest | now apply Hin].
Qed.

(** Whatever [check_scope] does, it writes no file; and when it returns, the
    world is the one it started in and every raster of [l] has the scope of
    the first. *)
Lemma check_scope_inv first l param w d0 r w' :
  files w !! first = Some (RasterFile d0) ->
  check_scope first l (Some (scope d0)) param w = (r, w') ->
  files w' = files w
  /\ (is_Ok r -> w' = w /\ forall f, f ∈ l ->
        exists d, files w !! f = Some (RasterFile d) /\ same_scope d0 d).
Proof.
  intros Hfirst. revert param.
  induction l as [|f rest IH]; intros param Hrun.
  { injection Hrun as <- <-. split; [reflexivity|]. intros _.
    split; [reflexivity|]. intros f Hf. inversion Hf. }
  destruct (files w !! f) as [[d| |]|] eqn:Hd.
  2,3,4: rewrite check_scope_not_raster in Hrun by (intros d; rewrite Hd; discriminate);
         injection Hrun as <- <-; split; [reflexivity | intros []].
  rewrite (check_scope_cons _ _ _ _ _ _ d Hd) in Hrun.
  assert (Hsplit : files w' = files w /\ (is_Ok r -> same_scope d0 d /\ w' = w /\
            forall f, f ∈ rest -> exists d, files w !! f = Some (RasterFile d) /\ same_scope d0 d)).
  { destruct (String.eqb f first) eqn:E.
    - apply String.eqb_eq in E. subst f. rewrite Hfirst in Hd. injection Hd as <-.
      destruct (IH _ Hrun) as [Hfiles Hok]. split; [exact Hfiles|].
      intros Hr. split; [apply same_scope_refl | now apply Hok].
    - destruct (mismatch (scope d0) d) eqn:Em.
      + injection Hrun as <- <-. split; [reflexivity | intros []].
      + apply mismatch_false in Em. destruct (IH _ Hrun) as [Hfiles Hok].
        split; [exact Hfiles|]. intros Hr. split; [exact Em | now apply Hok]. }
  destruct Hsplit as [Hfiles Hok]. split; [exact Hfiles|].
  intros Hr. destruct (Hok Hr) as (Hsame & Hw & Hrest). split; [exact Hw|].
  intros g Hg. apply elem_of_cons in Hg as [->|Hg]; [now exists d | now apply Hrest].
Qed.

Lemma check_inputs_cons f rest w :
  check_inputs (f :: rest) w =
  match files w !! f with
  | None => (Raise (SystemExit 0),
             mk_World (files w) (stdout w ++ [Print ("File does not exist: " ++ f)]))
  | Some _ =>
      if endswith f ".tif" then check_inputs rest w
      else (Raise (SystemExit 0),
            mk_World (files w) (stdout w ++ [Print ("File is not raster: " ++ f)]))
  end.
Proof.
  cbn [check_inputs]. unfold mbind at 1, M_bind at 1, os_path_isfile.
  destruct (files w !! f); [|reflexivity].
  destruct (endswith f ".tif"); reflexivity.
Qed.

Lemma check_inputs_ok l w :
  (forall f, f ∈ l -> is_Some (files w !! f) /\ endswith f ".tif" = true) ->
  check_inputs l w = (Ok tt, w).
Proof.
  induction l as [|f rest IH]; intros Hall; [reflexivity|].
  rewrite check_inputs_cons.
  destruct (Hall f) as [[x Hx] Htif]; [left|]. rewrite Hx, Htif.
  apply IH. intros g Hg. apply Hall. now right.
Qed.

Lemma check_inputs_inv l w r w' :
  check_inputs l w = (r, w') ->
  files w' = files w
  /\ (is_Ok r -> w' = w /\ forall f, f ∈ l ->
        is_Some (files w !! f) /\ endswith f ".tif" = true).
Proof.
  induction l as [|f rest IH]; intros Hrun.
  { injection Hrun as <- <-. split; [reflexivity|]. intros _.
    split; [reflexivity|]. intros f Hf. inversion Hf. }
  rewrite check_inputs_cons in Hrun.
  destruct (files w !! f) as [x|] eqn:Hx.
  2:{ injection Hrun as <- <-. split; [reflexivity | intros []]. }
  destruct (endswith f ".tif") eqn:Htif.
  2:{ injection Hrun as <- <-. split; [reflexivity | intros []]. }
  destruct (IH Hrun) as [Hfiles Hok]. split; [exact Hfiles|].
  intros Hr. destruct (Hok Hr) as [Hw Hrest]. split; [exact Hw|].
  intros g Hg. apply elem_of_cons in Hg as [->|Hg]; [|now apply Hrest].
  split; [now exists x | exact Htif].
Qed.

Lemma initialization_stages paths param w :
  initialization paths param w =
  match inputs paths with
  | [] => (Raise (SystemExit 0),
           mk_World (files w)
             ((stdout w ++ [Timecheck "Start"]) ++ [Print "No input file given!"]))
  | first :: _ =>
      match check_inputs (inputs paths) (start_world w) with
      | (Raise e, w1) => (Raise e, w1)
      | (Ok _, w1) =>
          match check_scope first (inputs paths) None param w1 with
          | (Raise e, w2) => (Raise e, w2)
          | (Ok param', w2) => (Ok (paths, param'), end_world paths w2)
          end
      end
  end.
Proof.
  unfold initialization. unfold mbind at 1, M_bind at 1. cbn [timecheck].
  fold (start_world w).
  destruct (inputs paths) as [|first rest] eqn:E; [reflexivity|].
  change (default "" (head (first :: rest))) with first.
  cbn [length Nat.eqb].
  unfold mbind at 1, M_bind at 1. cbn [mret M_ret].
  unfold mbind at 1, M_bind at 1.
  destruct (check_inputs (first :: rest) (start_world w)) as [[[]|e] w1]; [|reflexivity].
  unfold mbind at 1, M_bind at 1.
  destruct (check_scope first (first :: rest) None param w1) as [[param'|e] w2];
    [|reflexivity].
  unfold mbind, M_bind, os_path_exists, os_path_isfile, end_world, to_csv, timecheck, mret, M_ret.
  destruct (files w2 !! input_stats paths); reflexivity.
Qed.

Lemma check_scope_start first rest param w d0 :
  files w !! first = Some (RasterFile d0) ->
  check_scope first (first :: rest) None param w
  = check_scope first (first :: rest) (Some (scope d0)) param w.
Proof.
  intros Hfirst. rewrite !(check_scope_cons _ _ _ _ _ _ d0 Hfirst).
  now rewrite String.eqb_refl.
Qed.

Lemma initialization_same paths param w first d0 :
  head (inputs paths) = Some first ->
  files w !! first = Some (RasterFile d0) ->
  (forall f, f ∈ inputs paths ->
     endswith f ".tif" = true
     /\ exists d, files w !! f = Some (RasterFile d) /\ same_scope d0 d) ->
  initialization paths param w
  = (Ok (paths, fold_params (files w) (inputs paths) param),
     end_world paths (start_world w)).
Proof.
  intros Hhead Hfirst Hall. rewrite initialization_stages.
  destruct (inputs paths) as [|f0 rest] eqn:E; [discriminate Hhead|].
  injection Hhead as ->.
  rewrite check_inputs_ok.
  2:{ intros f Hf. destruct (Hall f Hf) as (Htif & d & Hd & _).
      split; [now exists (RasterFile d) | exact Htif]. }
  rewrite (check_scope_start _ _ _ (start_world w) d0 Hfirst).
  rewrite (check_scope_same _ _ _ (start_world w) d0 Hfirst).
  - reflexivity.
  - intros f Hf. now destruct (Hall f Hf) as (_ & H).
Qed.

Lemma initialization_differs paths param w first d0 :
  head (inputs paths) = Some first ->
  files w !! first = Some (RasterFile d0) ->
  (forall f, f ∈ inputs paths ->
     endswith f ".tif" = true /\ exists d, files w !! f = Some (RasterFile d)) ->
  (exists f d, f ∈ inputs paths /\ files w !! f = Some (RasterFile d)
               /\ ~ same_scope d0 d) ->
  initialization paths param w
  = (Raise (SystemExit 0), exit_scope (start_world w)).
Proof.
  intros Hhead Hfirst Hall Hne. rewrite initialization_stages.
  destruct (inputs paths) as [|f0 rest] eqn:E; [discriminate Hhead|].
  injection Hhead as ->.
  rewrite check_inputs_ok.
  2:{ intros f Hf. destruct (Hall f Hf) as (Htif & d & Hd).
      split; [now exists (RasterFile d) | exact Htif]. }
  rewrite (check_scope_start _ _ _ (start_world w) d0 Hfirst).
  rewrite (check_scope_differs _ _ _ (start_world w) d0 Hfirst).
  - reflexivity.
  - intros f Hf. now destruct (Hall f Hf) as (_ & H).
  - exact Hne.
Qed.

(** What any run of [initialization] guarantees: unless it returns, it
    has written no file; and it returns only when the input list is not
    empty and every input exists, is named [*.tif], is a raster and has the
    scope of the first. *)
Lemma initialization_inv paths param w r w' :
  initialization paths param w = (r, w') ->
  (~ is_Ok r -> files w' = files w)
  /\ (is_Ok r -> exists first d0,
        head (inputs paths) = Some first
        /\ files w !! first = Some (RasterFile d0)
        /\ forall f, f ∈ inputs paths ->
             endswith f ".tif" = true
             /\ exists d, files w !! f = Some (RasterFile d) /\ same_scope d0 d).
Proof.
  rewrite initialization_stages.
  destruct (inputs paths) as [|first rest] eqn:E.
  { intros Hrun. injection Hrun as <- <-. split; [reflexivity | intros []]. }
  destruct (check_inputs (first :: rest) (start_world w)) as [r1 w1] eqn:E1.
  destruct (check_inputs_inv _ _ _ _ E1) as [Hf1 Hok1].
  destruct r1 as [[]|e].
  2:{ intros Hrun. injection Hrun as <- <-. split; [now intros _ | intros []]. }
  destruct (Hok1 I) as [-> Hin]. clear Hok1 Hf1 E1.
  destruct (files (start_world w) !! first) as [[d0| |]|] eqn:Hfirst.
  2,3,4: rewrite check_scope_not_raster by (intros d; rewrite Hfirst; discriminate);
         intros Hrun; injection Hrun as <- <-; split; [now intros _ | intros []].
  rewrite (check_scope_start _ _ _ _ d0 Hfirst).
  destruct (check_scope first (first :: rest) (Some (scope d0)) param (start_world w))
    as [r2 w2] eqn:E2.
  destruct (check_scope_inv _ _ _ _ _ _ _ Hfirst E2) as [Hf2 Hok2].
  destruct r2 as [param'|e].
  2:{ intros Hrun. injection Hrun as <- <-. split; [now intros _ | intros []]. }
  destruct (Hok2 I) as [-> Hsame]. intros Hrun. injection Hrun as <- <-.
  split; [intros Hn; now destruct Hn|]. intros _.
  exists first, d0. split; [reflexivity|]. split; [exact Hfirst|].
  intros f Hf. split; [now apply Hin | now apply Hsame].
Qed.

Lemma fold_params_snoc fs l f d param :
  (forall g, g ∈ l -> exists dg, fs !! g = Some (RasterFile dg)) ->
  fs !! f = Some (RasterFile d) ->
  fold_params fs (l ++ [f]) param = scope_params d (fold_params fs l param).
Proof.
  revert param. induction l as [|g l IH]; intros param Hall Hf.
  - cbn [app fold_params]. now rewrite Hf.
  - destruct (Hall g) as [dg Hg]; [left|].
    cbn [app fold_params]. rewrite Hg. apply IH; [|exact Hf].
    intros h Hh. apply Hall. now right.
Qed.

(** A run that returns leaves in [param] the entries derived from the last
    input. *)
Lemma initialization_returns_last paths param w paths' param' w' f d :
  initialization paths param w = (Ok (paths', param'), w') ->
  last (inputs paths) = Some f ->
  files w !! f = Some (RasterFile d) ->
  exists param0, param' = scope_params d param0.
Proof.
  intros Hrun Hlast Hf.
  destruct (initialization_inv _ _ _ _ _ Hrun) as [_ Hok].
  destruct (Hok I) as (first & d0 & Hhead & Hfirst & Hall).
  rewrite (initialization_same _ _ _ _ _ Hhead Hfirst Hall) in Hrun.
  injection Hrun as _ <- _.
  apply last_Some in Hlast as [l' Hl']. rewrite Hl'.
  eexists. apply fold_params_snoc; [|exact Hf].
  intros g Hg. destruct (Hall g) as (_ & dg & Hdg & _).
  - rewrite Hl'. apply elem_of_app. now left.
  - now exists dg.
Qed.

Lemma scope_params_Crd_all d param :
  scope_params d param !! "Crd_all" = Some (VArray (bounding_box d)).
Proof.
  unfold scope_params.
  rewrite lookup_insert_ne by discriminate.
  rewrite lookup_insert_ne by discriminate.
  apply lookup_insert_eq.
Qed.

Lemma scope_params_GeoRef d param :
  scope_params d param !! "GeoRef" = Some (VGeoRef (georef_of d)).
Proof. unfold scope_params. apply lookup_insert_eq. Qed.

Lemma scope_params_res_desired d param :
  scope_params d param !! "res_desired"
  = Some (VArray [Qabs (fst (pixel_sizes d)); Qabs (snd (pixel_sizes d))]).
Proof.
  unfold scope_params.
  rewrite lookup_insert_ne by discriminate.
  apply lookup_insert_eq.
Qed.

(** C5.  For an input raster with metadata (origin-X, pixelWidth, _,
    origin-Y, _, pixelHeight) and size rasterWidth x rasterHeight, the
    validator computes the bounding box (north, east, south, west) with
    north = origin-Y, east = origin-X + pixelWidth * rasterWidth,
    south = origin-Y + pixelHeight * rasterHeight and west = origin-X; a
    run that returns has stored a box equal to it componentwise in
    [param["Crd_all"]] (the very box of the last input). *)
Theorem initialization_bounding_box paths param w paths' param' w' f d
    (origin_x pixel_width x_rot origin_y y_rot pixel_height : Q) :
  initialization paths param w = (Ok (paths', param'), w') ->
  f ∈ inputs paths ->
  files w !! f = Some (RasterFile d) ->
  GeoTransform d = (origin_x, pixel_width, x_rot, origin_y, y_rot, pixel_height) ->
  let box := [origin_y;
              origin_x + pixel_width * inject_Z (RasterXSize d);
              origin_y + pixel_height * inject_Z (RasterYSize d);
              origin_x]%Q in
  bounding_box d = box
  /\ exists Crd_all,
       param' !! "Crd_all" = Some (VArray Crd_all)
       /\ Forall2 Qeq Crd_all box
       /\ (last (inputs paths) = Some f -> Crd_all = box).
Proof.
  intros Hrun Hf Hd Hgt box.
  assert (Hbox : bounding_box d = box) by (unfold bounding_box; now rewrite Hgt).
  split; [exact Hbox|]. rewrite <- Hbox.
  destruct (initialization_inv _ _ _ _ _ Hrun) as [_ Hok].
  destruct (Hok I) as (first & d0 & Hhead & Hfirst & Hall).
  destruct (last (inputs paths)) as [fl|] eqn:Hlast.
  2:{ apply last_None in Hlast. rewrite Hlast in Hf. inversion Hf. }
  destruct (Hall fl) as (_ & dl & Hdl & Hsl).
  { apply last_Some in Hlast as [l' ->]. apply elem_of_app. right. left. }
  destruct (initialization_returns_last _ _ _ _ _ _ _ _ Hrun Hlast Hdl) as [p0 ->].
  exists (bounding_box dl). split; [apply scope_params_Crd_all|]. split.
  - destruct (Hall f Hf) as (_ & d' & Hd' & Hs). rewrite Hd in Hd'. injection Hd' as <-.
    destruct Hsl as [Hbl _], Hs as [Hb _].
    transitivity (bounding_box d0); [symmetry|]; assumption.
  - intros Heq. injection Heq as ->. rewrite Hd in Hdl. now injection Hdl as <-.
Qed.

Lemma initialization_bounding_box_witness :
  bounding_box wide_pixels = [10; 0 + 2 * inject_Z 5; 10 + -1 * inject_Z 10; 0]%Q
  /\ exists Crd_all,
       fold_params (files example_world) ["a.tif"; "c.tif"] ∅ !! "Crd_all"
       = Some (VArray Crd_all)
       /\ Forall2 Qeq Crd_all [10; 0 + 2 * inject_Z 5; 10 + -1 * inject_Z 10; 0]%Q
       /\ (last ["a.tif"; "c.tif"] = Some "a.tif" ->
           Crd_all = [10; 0 + 2 * inject_Z 5; 10 + -1 * inject_Z 10; 0]%Q).
Proof.
  apply (initialization_bounding_box (mk_Paths ["a.tif"; "c.tif"] "stats.csv") ∅
           example_world (mk_Paths ["a.tif"; "c.tif"] "stats.csv")
           (fold_params (files example_world) ["a.tif"; "c.tif"] ∅)
           (end_world (mk_Paths ["a.tif"; "c.tif"] "stats.csv")
              (start_world example_world))
           "a.tif" wide_pixels 0 2 0 10 0 (-1)).
  - vm_compute. reflexivity.
  - left.
  - reflexivity.
  - reflexivity.
Defined.

(** C6.  When every input is an existing raster named [*.tif]: if some
    input differs from the first in a component of its bounding box or in a
    pixel size, [initialization] prints the mismatch message and exits at
    once, with no file written, no end-of-run report and no georeference
    returned; if every input agrees with the first, it returns, with a
    georeference in [param]. *)
Theorem validation_mismatch_is_fatal paths param w first d0 :
  head (inputs paths) = Some first ->
  files w !! first = Some (RasterFile d0) ->
  (forall f, f ∈ inputs paths ->
     endswith f ".tif" = true /\ exists d, files w !! f = Some (RasterFile d)) ->
  ((exists f d, f ∈ inputs paths /\ files w !! f = Some (RasterFile d)
                /\ ~ same_scope d0 d) ->
   initialization paths param w
   = (Raise (SystemExit 0),
      mk_World (files w)
        ((stdout w ++ [Timecheck "Start"])
           ++ [Print "Not the same scope / resolution!"])))
  /\ ((forall f d, f ∈ inputs paths -> files w !! f = Some (RasterFile d) ->
         same_scope d0 d) ->
      exists param' w' G,
        initialization paths param w = (Ok (paths, param'), w')
        /\ param' !! "GeoRef" = Some (VGeoRef G)).
Proof.
  intros Hhead Hfirst Hall. split.
  - intros Hne. now rewrite (initialization_differs _ _ _ _ _ Hhead Hfirst Hall Hne).
  - intros Hsame.
    assert (Hall' : forall f, f ∈ inputs paths ->
              endswith f ".tif" = true
              /\ exists d, files w !! f = Some (RasterFile d) /\ same_scope d0 d).
    { intros f Hf. destruct (Hall f Hf) as (Htif & d & Hd).
      split; [exact Htif|]. exists d. split; [exact Hd | now apply (Hsame f)]. }
    rewrite (initialization_same _ _ _ _ _ Hhead Hfirst Hall').
    destruct (last (inputs paths)) as [fl|] eqn:Hlast.
    2:{ apply last_None in Hlast. rewrite Hlast in Hhead. discriminate Hhead. }
    apply last_Some in Hlast as [l' Hl'].
    destruct (Hall fl) as (_ & dl & Hdl).
    { rewrite Hl'. apply elem_of_app. right. left. }
    eexists _, _, (georef_of dl). split; [reflexivity|].
    rewrite Hl', (fold_params_snoc _ _ _ dl); [apply scope_params_GeoRef| |exact Hdl].
    intros g Hg. destruct (Hall g) as (_ & dg & Hdg); [|now exists dg].
    rewrite Hl'. apply elem_of_app. now left.
Qed.

Lemma validation_mismatch_is_fatal_witness :
  initialization (mk_Paths ["a.tif"; "b.tif"] "stats.csv") ∅ example_world
  = (Raise (SystemExit 0),
     mk_World (files example_world)
       [Timecheck "Start"; Print "Not the same scope / resolution!"])
  /\ exists param' w' G,
       initialization (mk_Paths ["a.tif"; "c.tif"] "stats.csv") ∅ example_world
       = (Ok (mk_Paths ["a.tif"; "c.tif"] "stats.csv", param'), w')
       /\ param' !! "GeoRef" = Some (VGeoRef G).
Proof.
  split.
  - apply (validation_mismatch_is_fatal (mk_Paths ["a.tif"; "b.tif"] "stats.csv") ∅
             example_world "a.tif" wide_pixels).
    + reflexivity.
    + reflexivity.
    + intros f Hf. apply elem_of_cons in Hf as [->|Hf];
        [split; [reflexivity | now exists wide_pixels]|].
      apply list_elem_of_singleton in Hf as ->.
      split; [reflexivity | now exists square_pixels].
    + exists "b.tif", square_pixels. split; [right; left|]. split; [reflexivity|].
      intros (_ & Hx & _). discriminate Hx.
  - apply (validation_mismatch_is_fatal (mk_Paths ["a.tif"; "c.tif"] "stats.csv") ∅
             example_world "a.tif" wide_pixels).
    + reflexivity.
    + reflexivity.
    + intros f Hf. apply elem_of_cons in Hf as [->|Hf];
        [split; [reflexivity | now exists wide_pixels]|].
      apply list_elem_of_singleton in Hf as ->.
      split; [reflexivity | now exists wide_pixels].
    + intros f d Hf Hd. apply elem_of_cons in Hf as [->|Hf].
      * injection Hd as <-. apply same_scope_refl.
      * apply list_elem_of_singleton in Hf as ->. injection Hd as <-.
        apply same_scope_refl.
Defined.

(** C7.  Every fatal validation failure (no input, a missing file, a name
    that does not end in [.tif], an input whose scope differs from the
    first) ends the run with an exception before anything is written: the
    files are those of the start, and in particular no statistics table has
    been created. *)
Theorem validation_failure_writes_nothing paths param w :
  validation_failure (files w) (inputs paths) ->
  exists e w',
    initialization paths param w = (Raise e, w')
    /\ files w' = files w
    /\ files w' !! input_stats paths = files w !! input_stats paths.
Proof.
  intros Hfail.
  destruct (initialization paths param w) as [r w'] eqn:Hrun.
  destruct (initialization_inv _ _ _ _ _ Hrun) as [Hraise Hok].
  destruct r as [res|e].
  - exfalso. destruct (Hok I) as (first & d0 & Hhead & Hfirst & Hall).
    destruct Hfail as [Hnil | [(f & Hf & Hnone) | [(f & Hf & Hext)
                       | (first' & f & d0' & d & Hhead' & Hf & Hfirst' & Hd & Hne)]]].
    + rewrite Hnil in Hhead. discriminate Hhead.
    + destruct (Hall f Hf) as (_ & d & Hd & _). rewrite Hnone in Hd. discriminate Hd.
    + destruct (Hall f Hf) as (Htif & _). rewrite Hext in Htif. discriminate Htif.
    + rewrite Hhead in Hhead'. injection Hhead' as <-.
      rewrite Hfirst in Hfirst'. injection Hfirst' as <-.
      destruct (Hall f Hf) as (_ & d' & Hd' & Hsame).
      rewrite Hd in Hd'. injection Hd' as <-. now apply Hne.
  - exists e, w'. split; [reflexivity|].
    assert (Hfiles : files w' = files w) by (apply Hraise; intros []).
    split; [exact Hfiles | now rewrite Hfiles].
Qed.

Lemma validation_failure_writes_nothing_witness :
  exists e w',
    initialization (mk_Paths ["a.tif"; "missing.tif"] "stats.csv") ∅ example_world
    = (Raise e, w')
    /\ files w' = files example_world
    /\ files w' !! "stats.csv" = files example_world !! "stats.csv".
Proof.
  apply (validation_failure_writes_nothing
           (mk_Paths ["a.tif"; "missing.tif"] "stats.csv") ∅ example_world).
  right. left. exists "missing.tif". split; [right; left | reflexivity].
Defined.

(** The georeference of a run that returns: it is derived from the last
    input, its pixelHeight is the negated magnitude of the horizontal pixel
    size and its pixelWidth the magnitude of the vertical one. *)
Lemma initialization_georef paths param w paths' param' w' f d :
  initialization paths param w = (Ok (paths', param'), w') ->
  last (inputs paths) = Some f ->
  files w !! f = Some (RasterFile d) ->
  param' !! "GeoRef" = Some (VGeoRef (georef_of d))
  /\ pixelHeight (georef_of d) = (- Qabs (fst (pixel_sizes d)))%Q
  /\ pixelWidth (georef_of d) = Qabs (snd (pixel_sizes d)).
Proof.
  intros Hrun Hlast Hf.
  destruct (initialization_returns_last _ _ _ _ _ _ _ _ Hrun Hlast Hf) as [p0 ->].
  split; [apply scope_params_GeoRef|].
  unfold georef_of, pixel_sizes.
  now destruct (GeoTransform d) as [[[[[ulx xs] xr] uly] yr] ys].
Qed.

(** C1, evaluated on one raster with pixels 2 wide and 1 high
    (x_size = 2, y_size = -1): the validator stores res_desired = [2, 1] and
    a georeference with pixelHeight = -2 and pixelWidth = 1, that is, the
    negated horizontal magnitude and the vertical magnitude, where the claim
    has pixelHeight = -1 and pixelWidth = 2. *)
Theorem initialization_georef_swaps_pixel_sizes :
  exists param' w' G,
    initialization (mk_Paths ["a.tif"] "stats.csv") ∅ example_world
    = (Ok (mk_Paths ["a.tif"] "stats.csv", param'), w')
    /\ param' !! "res_desired" = Some (VArray [2; 1]%Q)
    /\ param' !! "GeoRef" = Some (VGeoRef G)
    /\ pixelHeight G = (-2)%Q
    /\ pixelWidth G = 1%Q
    /\ Qabs (snd (pixel_sizes wide_pixels)) = 1%Q
    /\ Qabs (fst (pixel_sizes wide_pixels)) = 2%Q
    /\ ~ (pixelHeight G == - Qabs (snd (pixel_sizes wide_pixels)))%Q
    /\ ~ (pixelWidth G == Qabs (fst (pixel_sizes wide_pixels)))%Q.
Proof.
  eexists _, _, (georef_of wide_pixels). split.
  - apply (initialization_same _ _ _ "a.tif" wide_pixels); [reflexivity..|].
    intros f Hf. apply list_elem_of_singleton in Hf as ->.
    split; [reflexivity|]. exists wide_pixels. split; [reflexivity|].
    apply same_scope_refl.
  - split; [reflexivity|]. split; [reflexivity|].
    repeat (split; [reflexivity|]). split; discriminate.
Qed.

(** ** create_voronoi_polygons *)

(** Nothing is caught: an exception of the tessellation is the exception of
    [create_voronoi_polygons]. *)
Lemma create_voronoi_polygons_raises
    (Voronoi : list (Q * Q) -> result VoronoiDiagram)
    (polygonize : list (list (Q * Q)) -> list Geometry)
    (points_list : list (Q * Q)) (e : exn) :
  Voronoi points_list = Raise e ->
  create_voronoi_polygons Voronoi polygonize points_list = Raise e.
Proof.
  intros H. unfold create_voronoi_polygons. now rewrite H.
Qed.

(** A ridge that reaches infinity (index -1) is read as the last vertex. *)
Lemma np_index_minus_one {A : Type} (a : list A) (x : A) :
  np_index (a ++ [x]) (-1) = Ok x.
Proof.
  unfold np_index. rewrite length_app, Nat2Z.inj_add. cbn [length Z.leb Z.compare].
  destruct (0 <=? Z.of_nat (length a) + Z.of_nat 1 + -1)%Z eqn:E.
  - replace (Z.to_nat (Z.of_nat (length a) + Z.of_nat 1 + -1)) with (length a) by lia.
    unfold index. now rewrite list_lookup_middle.
  - apply Z.leb_gt in E. lia.
Qed.


(** * Further properties

    What the functions do at their edges, what they keep and how they
    compose. *)

(** ** [calc_geotiff] and [calc_region] *)

(** X1.  [calc_geotiff] raises [IndexError] exactly when the bounding box has
    fewer than four entries or the resolution fewer than two, and returns a
    dictionary in every other case. *)
Theorem calc_geotiff_index_error (Crd_all res_desired : list Q) :
  (calc_geotiff Crd_all res_desired = Raise IndexError
   <-> (length Crd_all < 4 \/ length res_desired < 2)%nat)
  /\ (is_Ok (calc_geotiff Crd_all res_desired)
      <-> (4 <= length Crd_all /\ 2 <= length res_desired)%nat).
Proof.
  destruct Crd_all as [|c0 [|c1 [|c2 [|c3 Crd]]]];
    destruct res_desired as [|r0 [|r1 res]];
    cbn; (split; split; intros H);
    solve [ discriminate H | reflexivity | exact I | lia
          | destruct H; lia | destruct H ].
Qed.

Lemma py_int_np_div_zero (x y : Q) :
  (y == 0)%Q ->
  py_int (np_div x y) = Raise OverflowError
  \/ py_int (np_div x y) = Raise ValueError.
Proof.
  intros Hy. unfold np_div. apply Qeq_bool_iff in Hy. rewrite Hy.
  destruct (Qeq_bool x 0); [right | left]; reflexivity.
Qed.

Lemma py_int_np_div_nonzero (x y : Q) :
  ~ (y == 0)%Q -> exists M, py_int (np_div x y) = Ok M.
Proof.
  intros Hy. unfold np_div. destruct (Qeq_bool y 0) eqn:E.
  - apply Qeq_bool_iff in E. now destruct Hy.
  - eexists. reflexivity.
Qed.

(** X2.  With a four-entry region box, a resolution entry equal to zero
    makes the quotient an infinity or not a number, and [int] raises
    [OverflowError] or [ValueError]: [calc_region] ends there, before any
    grid is built and whatever the masking step would do. *)
Theorem calc_region_zero_resolution
    (mask_mask : Profile -> ndarray -> list Geometry -> result ndarray)
    (geometry : Geometry) (north east south west res0 res1 : Q) (G : GeoRef) :
  (res0 == 0 \/ res1 == 0)%Q ->
  calc_region mask_mask geometry [north; east; south; west] [res0; res1] G
  = Raise OverflowError
  \/ calc_region mask_mask geometry [north; east; south; west] [res0; res1] G
     = Raise ValueError.
Proof.
  intros H. unfold calc_region, calc_region_setup, calc_region_grid.
  cbn [index lookup list_lookup mbind result_bind].
  destruct (Qeq_dec res0 0) as [H0|H0].
  - destruct (py_int_np_div_zero (Qabs (np_sub south north)) _ H0) as [E|E];
      rewrite E; [left | right]; reflexivity.
  - destruct (py_int_np_div_nonzero (Qabs (np_sub south north)) _ H0) as [M E].
    rewrite E. cbn [mbind result_bind].
    destruct H as [H|H]; [now destruct H0|].
    destruct (py_int_np_div_zero (Qabs (np_sub west east)) _ H) as [E1|E1];
      rewrite E1; [left | right]; reflexivity.
Qed.

Lemma calc_region_zero_resolution_witness :
  calc_region (rasterio_mask all_inside) example_square [10; 5; 5; 0]%Q
    [1; 0]%Q (mk_GeoRef [0; 10]%Q [0; 0]%Q 0 (-1)) = Raise OverflowError
  \/ calc_region (rasterio_mask all_inside) example_square [10; 5; 5; 0]%Q
       [1; 0]%Q (mk_GeoRef [0; 10]%Q [0; 0]%Q 0 (-1)) = Raise ValueError.
Proof.
  apply (calc_region_zero_resolution (rasterio_mask all_inside) example_square
           10 5 5 0 1 0 (mk_GeoRef [0; 10]%Q [0; 0]%Q 0 (-1))).
  right. reflexivity.
Defined.

(** X4.  A region box with fewer than four entries makes [calc_region]
    raise [IndexError]. *)
Theorem calc_region_short_box
    (mask_mask : Profile -> ndarray -> list Geometry -> result ndarray)
    (geometry : Geometry) (Crd_reg res_desired : list Q) (G : GeoRef) :
  (length Crd_reg < 4)%nat ->
  calc_region mask_mask geometry Crd_reg res_desired G = Raise IndexError.
Proof.
  intros H. unfold calc_region, calc_region_setup, calc_region_grid.
  destruct Crd_reg as [|c0 [|c1 [|c2 [|c3 Crd]]]]; try reflexivity.
  simpl in H. lia.
Qed.

Lemma calc_region_short_box_witness :
  calc_region (fun _ A _ => Ok A) (Polygon []) [10; 5; 5]%Q [1; 1]%Q
    (mk_GeoRef [0; 10]%Q [0; 0]%Q 1 (-1)) = Raise IndexError.
Proof.
  apply (calc_region_short_box (fun _ A _ => Ok A) (Polygon []) [10; 5; 5]%Q
           [1; 1]%Q (mk_GeoRef [0; 10]%Q [0; 0]%Q 1 (-1))).
  simpl. lia.
Defined.

(** X6.  With the georeference that [calc_geotiff] derives from the same
    positive resolution, the raster that [calc_region] hands to the masking
    step is south-up: its origin is (west, south), a column is
    [res_desired[1]] wide and a row advances by [+ res_desired[0]], the
    negated pixelHeight, with no rotation. *)
Theorem calc_region_after_calc_geotiff
    (mask_mask : Profile -> ndarray -> list Geometry -> result ndarray)
    (geometry : Geometry) (Crd_all : list Q)
    (north east south west res0 res1 : Q) :
  length Crd_all = 4%nat ->
  (0 < res0)%Q -> (0 < res1)%Q ->
  exists G profile A,
    calc_geotiff Crd_all [res0; res1] = Ok G
    /\ calc_region mask_mask geometry [north; east; south; west]
         [res0; res1] G
       = mask_mask profile A (calc_region_features geometry)
    /\ aff_c (transform profile) = west
    /\ aff_f (transform profile) = south
    /\ aff_a (transform profile) = res1
    /\ (aff_e (transform profile) == res0)%Q
    /\ (0 < aff_e (transform profile))%Q
    /\ aff_b (transform profile) = 0%Q
    /\ aff_d (transform profile) = 0%Q.
Proof.
  intros Hlen H0 H1.
  destruct Crd_all as [|N0 [|E0 [|S0 [|W0 [|? ?]]]]]; try discriminate Hlen.
  eexists _, _, _. split; [reflexivity|].
  unfold calc_region.
  rewrite (calc_region_setup_ok geometry north east south west _ _ _ H0 H1).
  cbn [mbind result_bind].
  split; [reflexivity|].
  cbn [transform from_origin aff_a aff_b aff_c aff_d aff_e aff_f
       pixelWidth pixelHeight].
  split; [reflexivity|]. split; [reflexivity|]. split; [reflexivity|].
  split; [apply Qopp_involutive|].
  split; [now rewrite Qopp_involutive|]. split; reflexivity.
Qed.

Lemma calc_region_after_calc_geotiff_witness :
  exists G profile A,
    calc_geotiff [10; 10; 0; 0]%Q [2; 3]%Q = Ok G
    /\ calc_region (rasterio_mask all_inside) example_square [10; 5; 5; 0]%Q
         [2; 3]%Q G
       = rasterio_mask all_inside profile A (calc_region_features example_square)
    /\ aff_c (transform profile) = 0%Q
    /\ aff_f (transform profile) = 5%Q
    /\ aff_a (transform profile) = 3%Q
    /\ (aff_e (transform profile) == 2)%Q
    /\ (0 < aff_e (transform profile))%Q
    /\ aff_b (transform profile) = 0%Q
    /\ aff_d (transform profile) = 0%Q.
Proof.
  apply (calc_region_after_calc_geotiff (rasterio_mask all_inside)
           example_square [10; 10; 0; 0]%Q 10 5 5 0 2 3); reflexivity.
Defined.

(** ** The raster writers *)

(** X8.  A raster origin with fewer than two entries makes [array2raster]
    raise [IndexError] before the driver is asked to create anything: the
    world is unchanged. *)
Theorem array2raster_short_origin rf fn rasterOrigin pw ph a w :
  (length rasterOrigin < 2)%nat ->
  array2raster rf fn rasterOrigin pw ph a w = (Raise IndexError, w).
Proof.
  intros H. unfold array2raster.
  destruct rasterOrigin as [|ox [|oy rest]]; try reflexivity.
  simpl in H. lia.
Qed.

Lemma array2raster_short_origin_witness :
  array2raster (fun x => x) "out.tif" [0]%Q 1 (-1) example_array example_world
  = (Raise IndexError, example_world).
Proof.
  apply (array2raster_short_origin (fun x => x) "out.tif" [0]%Q 1 (-1)
           example_array example_world).
  simpl. lia.
Defined.

(** X9.  For an array without rows or without columns the driver creates no
    dataset, the first method call on the missing dataset raises, and no
    file is written. *)
Theorem array2raster_empty_array rf fn ox oy rest pw ph a w :
  (nrows a = 0 \/ ncols a = 0)%nat ->
  array2raster rf fn (ox :: oy :: rest) pw ph a w = (Raise AttributeError, w).
Proof.
  intros H. unfold array2raster, lift, index. simpl.
  unfold mbind, M_bind at 1 2 3. unfold driver_Create.
  destruct ((Z.of_nat (ncols a) <? 1) || (Z.of_nat (nrows a) <? 1))%Z eqn:E;
    [reflexivity|].
  apply orb_false_iff in E. destruct E as [E1 E2].
  apply Z.ltb_ge in E1, E2. lia.
Qed.

Lemma array2raster_empty_array_witness :
  array2raster (fun x => x) "out.tif" [0; 10]%Q 1 (-1) (mk_ndarray 0 5 [])
    example_world
  = (Raise AttributeError, example_world).
Proof.
  apply (array2raster_empty_array (fun x => x) "out.tif" 0 10 [] 1 (-1)
           (mk_ndarray 0 5 []) example_world).
  left. reflexivity.
Defined.

(** X10.  [array2raster] replaces whatever was at the output path: the file
    written does not depend on what the path held before, every other path
    keeps its content, and nothing is printed. *)
Theorem array2raster_overwrites rf fn ox oy rest pw ph a w1 w2 :
  (0 < nrows a)%nat -> (0 < ncols a)%nat ->
  exists w1' w2',
    array2raster rf fn (ox :: oy :: rest) pw ph a w1 = (Ok tt, w1')
    /\ array2raster rf fn (ox :: oy :: rest) pw ph a w2 = (Ok tt, w2')
    /\ is_Some (files w1' !! fn)
    /\ files w1' !! fn = files w2' !! fn
    /\ (forall p, p <> fn -> files w1' !! p = files w1 !! p)
    /\ stdout w1' = stdout w1.
Proof.
  intros Hr Hc. eexists _, _.
  split; [apply array2raster_run; assumption|].
  split; [apply array2raster_run; assumption|].
  cbn [files stdout]. rewrite !lookup_insert_eq.
  split; [eexists; reflexivity|]. split; [reflexivity|].
  split; [|reflexivity]. intros p Hp. now rewrite lookup_insert_ne.
Qed.

Lemma array2raster_overwrites_witness :
  exists w1' w2',
    array2raster (fun x => x) "a.tif" [0; 10]%Q 1 (-1) example_array example_world
    = (Ok tt, w1')
    /\ array2raster (fun x => x) "a.tif" [0; 10]%Q 1 (-1) example_array
         (mk_World ∅ []) = (Ok tt, w2')
    /\ is_Some (files w1' !! "a.tif")
    /\ files w1' !! "a.tif" = files w2' !! "a.tif"
    /\ (forall p, p <> "a.tif" -> files w1' !! p = files example_world !! p)
    /\ stdout w1' = stdout example_world.
Proof.
  apply (array2raster_overwrites (fun x => x) "a.tif" 0 10 [] 1 (-1)
           example_array example_world (mk_World ∅ [])); simpl; lia.
Defined.

Lemma flipud_involutive (a : ndarray) : flipud (flipud a) = a.
Proof.
  destruct a as [r c l]. unfold flipud. cbn [nrows ncols cells].
  now rewrite reverse_involutive.
Qed.

(** X11.  Round trip: opening the file written by [array2raster] gives the
    supplied origin and pixel sizes with zero rotation, the size of the
    array, and a band whose [flipud] is the array. *)
Theorem array2raster_round_trip rf fn ox oy rest pw ph a w :
  wf_ndarray a -> (0 < nrows a)%nat -> (0 < ncols a)%nat ->
  exists w' d,
    array2raster rf fn (ox :: oy :: rest) pw ph a w = (Ok tt, w')
    /\ gdal_Open fn w' = (Ok (Some d), w')
    /\ GeoTransform d = (ox, pw, 0, oy, 0, ph)%Q
    /\ RasterXSize d = Z.of_nat (ncols a)
    /\ RasterYSize d = Z.of_nat (nrows a)
    /\ flipud (Band1 d) = a.
Proof.
  intros [Hlen Hrows] Hr Hc. eexists _, _.
  split; [apply array2raster_run; assumption|].
  unfold gdal_Open. cbn [files]. rewrite lookup_insert_eq.
  split; [reflexivity|]. cbn [GeoTransform RasterXSize RasterYSize Band1].
  split; [reflexivity|]. split; [reflexivity|]. split; [reflexivity|].
  rewrite map_gdal_cast_float64, overlay_zeros.
  - apply (flipud_involutive a).
  - now rewrite length_reverse.
  - now apply Forall_reverse.
Qed.

Lemma array2raster_round_trip_witness :
  exists w' d,
    array2raster (fun x => x) "out.tif" [0; 10]%Q 1 (-1) example_array example_world
    = (Ok tt, w')
    /\ gdal_Open "out.tif" w' = (Ok (Some d), w')
    /\ GeoTransform d = (0, 1, 0, 10, 0, -1)%Q
    /\ RasterXSize d = 2%Z
    /\ RasterYSize d = 2%Z
    /\ flipud (Band1 d) = example_array.
Proof.
  apply (array2raster_round_trip (fun x => x) "out.tif" 0 10 [] 1 (-1)
           example_array example_world).
  - split; [reflexivity | repeat constructor].
  - simpl. lia.
  - simpl. lia.
Defined.

(** X12.  When the reference raster is missing or is not a raster,
    [array_to_raster] raises before creating the destination: the world,
    and with it any file at the destination, is unchanged. *)
Theorem array_to_raster_bad_reference rf a dest src_path w :
  (forall d, files w !! src_path <> Some (RasterFile d)) ->
  array_to_raster rf a dest src_path w = (Raise AttributeError, w).
Proof.
  intros H. unfold array_to_raster.
  unfold mbind at 1, M_bind at 1. unfold gdal_Open.
  destruct (files w !! src_path) as [[d| |]|] eqn:E; try reflexivity.
  now destruct (H d).
Qed.

Lemma array_to_raster_bad_reference_witness :
  array_to_raster (fun x => x) example_array "b.tif" "missing.tif" example_world
  = (Raise AttributeError, example_world).
Proof.
  apply (array_to_raster_bad_reference (fun x => x) example_array "b.tif"
           "missing.tif" example_world).
  intros d. discriminate.
Defined.

(** X13.  The raster written by [array_to_raster] takes origin, pixel sizes,
    projection and size from the reference raster, not from the array; the
    rotation terms of the reference are replaced by zero, and no other file
    changes. *)
Theorem array_to_raster_copies_georeference rf a dest src_path src w
    (upper_left_x x_size x_rotation upper_left_y y_rotation y_size : Q) :
  files w !! src_path = Some (RasterFile src) ->
  GeoTransform src
  = (upper_left_x, x_size, x_rotation, upper_left_y, y_rotation, y_size) ->
  (1 <= RasterXSize src)%Z -> (1 <= RasterYSize src)%Z ->
  (Z.of_nat (ncols a) <= RasterXSize src)%Z ->
  (Z.of_nat (nrows a) <= RasterYSize src)%Z ->
  exists w' d,
    array_to_raster rf a dest src_path w = (Ok tt, w')
    /\ gdal_Open dest w' = (Ok (Some d), w')
    /\ GeoTransform d = (upper_left_x, x_size, 0, upper_left_y, 0, y_size)%Q
    /\ RasterXSize d = RasterXSize src
    /\ RasterYSize d = RasterYSize src
    /\ Projection d = Projection src
    /\ nrows (Band1 d) = Z.to_nat (RasterYSize src)
    /\ ncols (Band1 d) = Z.to_nat (RasterXSize src)
    /\ (forall p, p <> dest -> files w' !! p = files w !! p).
Proof.
  intros Hsrc Hgt HX HY Hc Hr. eexists _, _.
  split; [apply (array_to_raster_run rf a dest src_path src w); assumption|].
  unfold gdal_Open. cbn [files]. rewrite lookup_insert_eq.
  split; [reflexivity|].
  cbn [GeoTransform RasterXSize RasterYSize Projection Band1 nrows ncols].
  rewrite Hgt. repeat (split; [reflexivity|]).
  intros p Hp. now rewrite lookup_insert_ne.
Qed.

Lemma array_to_raster_copies_georeference_witness :
  exists w' d,
    array_to_raster (fun x => x) example_array "out.tif" "a.tif" example_world
    = (Ok tt, w')
    /\ gdal_Open "out.tif" w' = (Ok (Some d), w')
    /\ GeoTransform d = (0, 2, 0, 10, 0, -1)%Q
    /\ RasterXSize d = RasterXSize wide_pixels
    /\ RasterYSize d = RasterYSize wide_pixels
    /\ Projection d = Projection wide_pixels
    /\ nrows (Band1 d) = Z.to_nat (RasterYSize wide_pixels)
    /\ ncols (Band1 d) = Z.to_nat (RasterXSize wide_pixels)
    /\ (forall p, p <> "out.tif" -> files w' !! p = files example_world !! p).
Proof.
  apply (array_to_raster_copies_georeference (fun x => x) example_array
           "out.tif" "a.tif" wide_pixels example_world 0 2 0 10 0 (-1));
    first [reflexivity | simpl; lia].
Defined.

(** X14.  An array wider or taller than the reference raster makes
    [array_to_raster] raise [ValueError] at [WriteArray]; the destination has
    been created by then and is left as a raster of zeros of the reference
    size. *)
Theorem array_to_raster_oversize rf a dest src_path src w :
  files w !! src_path = Some (RasterFile src) ->
  (1 <= RasterXSize src)%Z -> (1 <= RasterYSize src)%Z ->
  (RasterXSize src < Z.of_nat (ncols a)
   \/ RasterYSize src < Z.of_nat (nrows a))%Z ->
  exists w' d,
    array_to_raster rf a dest src_path w = (Raise ValueError, w')
    /\ files w' = <[dest := RasterFile d]> (files w)
    /\ RasterXSize d = RasterXSize src
    /\ RasterYSize d = RasterYSize src
    /\ Band1 d = zeros (Z.to_nat (RasterYSize src)) (Z.to_nat (RasterXSize src)).
Proof.
  intros Hsrc HX HY Hbig. unfold array_to_raster.
  unfold mbind, M_bind at 1 2. unfold gdal_Open. rewrite Hsrc. simpl.
  destruct (GeoTransform src) as [[[[[ulx xs] xr] uly] yr] ys].
  unfold M_bind at 1 2. unfold driver_Create.
  destruct ((RasterXSize src <? 1) || (RasterYSize src <? 1))%Z eqn:E.
  { apply orb_true_iff in E. destruct E as [E|E]; apply Z.ltb_lt in E; lia. }
  unfold deref, mret, M_ret. unfold M_bind.
  unfold SetGeoTransform. erewrite update_dataset_insert by reflexivity.
  unfold SetProjection. erewrite update_dataset_insert by reflexivity.
  unfold WriteArray, update_dataset. cbn [files stdout].
  rewrite lookup_insert_eq. cbn [RasterXSize RasterYSize].
  destruct ((Z.of_nat (ncols a) >? RasterXSize src)
            || (Z.of_nat (nrows a) >? RasterYSize src))%Z eqn:E'.
  - eexists _, _. split; [reflexivity|]. cbn [files].
    split; [reflexivity|]. repeat split.
  - apply orb_false_iff in E'. rewrite !Z.gtb_ltb in E'. destruct E' as [E1 E2].
    apply Z.ltb_ge in E1, E2. lia.
Qed.

Lemma array_to_raster_oversize_witness :
  exists w' d,
    array_to_raster (fun x => x) (mk_ndarray 1 6 [[1; 2; 3; 4; 5; 6]]%Q)
      "out.tif" "a.tif" example_world = (Raise ValueError, w')
    /\ files w' = <["out.tif" := RasterFile d]> (files example_world)
    /\ RasterXSize d = RasterXSize wide_pixels
    /\ RasterYSize d = RasterYSize wide_pixels
    /\ Band1 d = zeros (Z.to_nat (RasterYSize wide_pixels))
                   (Z.to_nat (RasterXSize wide_pixels)).
Proof.
  apply (array_to_raster_oversize (fun x => x)
           (mk_ndarray 1 6 [[1; 2; 3; 4; 5; 6]]%Q) "out.tif" "a.tif"
           wide_pixels example_world);
    first [reflexivity | simpl; lia].
Defined.

(** ** [initialization] *)

(** The shape of every run that returns. *)
Lemma initialization_returns paths param w paths' param' w' :
  initialization paths param w = (Ok (paths', param'), w') ->
  exists first d0 fl dl,
    head (inputs paths) = Some first
    /\ files w !! first = Some (RasterFile d0)
    /\ last (inputs paths) = Some fl
    /\ files w !! fl = Some (RasterFile dl)
    /\ same_scope d0 dl
    /\ (forall f, f ∈ inputs paths ->
          endswith f ".tif" = true
          /\ exists d, files w !! f = Some (RasterFile d) /\ same_scope d0 d)
    /\ paths' = paths
    /\ param' = fold_params (files w) (inputs paths) param
    /\ (exists param0, param' = scope_params dl param0)
    /\ w' = end_world paths (start_world w).
Proof.
  intros Hrun.
  destruct (initialization_inv _ _ _ _ _ Hrun) as [_ Hok].
  destruct (Hok I) as (first & d0 & Hhead & Hfirst & Hall).
  destruct (last (inputs paths)) as [fl|] eqn:Hlast.
  2:{ apply last_None in Hlast. rewrite Hlast in Hhead. discriminate Hhead. }
  destruct (Hall fl) as (_ & dl & Hdl & Hsl).
  { apply last_Some in Hlast as [l' Hl']. rewrite Hl'. apply elem_of_app. right. left. }
  pose proof (initialization_returns_last _ _ _ _ _ _ _ _ Hrun Hlast Hdl) as Hlastp.
  rewrite (initialization_same _ _ _ _ _ Hhead Hfirst Hall) in Hrun.
  injection Hrun as <- <- <-.
  exists first, d0, fl, dl.
  split; [exact Hhead|]. split; [exact Hfirst|]. split; [reflexivity|].
  split; [exact Hdl|]. split; [exact Hsl|]. split; [exact Hall|].
  split; [reflexivity|]. split; [reflexivity|]. split; [exact Hlastp | reflexivity].
Qed.

(** X16.  With an empty input list [initialization] prints
    'No input file given!' after the start report and exits with status 0;
    no file is touched. *)
Theorem initialization_no_inputs paths param w :
  inputs paths = [] ->
  initialization paths param w
  = (Raise (SystemExit 0),
     mk_World (files w)
       ((stdout w ++ [Timecheck "Start"]) ++ [Print "No input file given!"])).
Proof.
  intros H. rewrite initialization_stages. now rewrite H.
Qed.

Lemma initialization_no_inputs_witness :
  initialization (mk_Paths [] "stats.csv") ∅ example_world
  = (Raise (SystemExit 0),
     mk_World (files example_world)
       [Timecheck "Start"; Print "No input file given!"]).
Proof.
  apply (initialization_no_inputs (mk_Paths [] "stats.csv") ∅ example_world).
  reflexivity.
Defined.

Lemma check_inputs_app (good l : list string) w :
  (forall g, g ∈ good -> is_Some (files w !! g) /\ endswith g ".tif" = true) ->
  check_inputs (good ++ l)%list w = check_inputs l w.
Proof.
  induction good as [|g good IH]; intros Hgood; [reflexivity|].
  cbn [app]. rewrite check_inputs_cons.
  destruct (Hgood g) as [[x Hx] Htif]; [left|]. rewrite Hx, Htif.
  apply IH. intros h Hh. apply Hgood. now right.
Qed.

(** X17.  The inputs are checked in list order, existence before extension:
    the first input that is missing, or that exists without ending in
    [.tif], is the one named in the message, and the run exits with status 0
    whatever follows it in the list. *)
Theorem initialization_first_bad_input paths param w
    (good : list string) (f : string) (rest : list string) :
  inputs paths = (good ++ f :: rest)%list ->
  (forall g, g ∈ good -> is_Some (files w !! g) /\ endswith g ".tif" = true) ->
  (files w !! f = None ->
   initialization paths param w
   = (Raise (SystemExit 0),
      mk_World (files w)
        ((stdout w ++ [Timecheck "Start"])
           ++ [Print ("File does not exist: " ++ f)])))
  /\ (is_Some (files w !! f) -> endswith f ".tif" = false ->
      initialization paths param w
      = (Raise (SystemExit 0),
         mk_World (files w)
           ((stdout w ++ [Timecheck "Start"])
              ++ [Print ("File is not raster: " ++ f)]))).
Proof.
  intros Hin Hgood. rewrite initialization_stages, Hin.
  assert (Hne : exists first tl, (good ++ f :: rest)%list = first :: tl)
    by (destruct good; eexists _, _; reflexivity).
  destruct Hne as (first & tl & Hne). rewrite Hne, <- Hne. clear Hne.
  rewrite (check_inputs_app good (f :: rest) (start_world w) Hgood).
  rewrite check_inputs_cons. cbn [start_world files stdout].
  split.
  - intros Hnone. now rewrite Hnone.
  - intros [x Hx] Htif. now rewrite Hx, Htif.
Qed.

Lemma initialization_first_bad_input_witness :
  initialization (mk_Paths ["a.tif"; "missing.tif"; "b.tif"] "stats.csv") ∅
    example_world
  = (Raise (SystemExit 0),
     mk_World (files example_world)
       [Timecheck "Start"; Print "File does not exist: missing.tif"])
  /\ initialization (mk_Paths ["a.tif"; "notes.txt"] "stats.csv") ∅
       (mk_World (<["a.tif" := RasterFile wide_pixels]>
                    (<["notes.txt" := OtherFile]> ∅)) [])
     = (Raise (SystemExit 0),
        mk_World (<["a.tif" := RasterFile wide_pixels]>
                     (<["notes.txt" := OtherFile]> ∅))
          [Timecheck "Start"; Print "File is not raster: notes.txt"]).
Proof.
  split.
  - apply (initialization_first_bad_input
             (mk_Paths ["a.tif"; "missing.tif"; "b.tif"] "stats.csv") ∅
             example_world ["a.tif"] "missing.tif" ["b.tif"]).
    + reflexivity.
    + intros g Hg. apply list_elem_of_singleton in Hg as ->.
      split; [now exists (RasterFile wide_pixels) | reflexivity].
    + reflexivity.
  - destruct (initialization_first_bad_input
                (mk_Paths ["a.tif"; "notes.txt"] "stats.csv") ∅
                (mk_World (<["a.tif" := RasterFile wide_pixels]>
                             (<["notes.txt" := OtherFile]> ∅)) [])
                ["a.tif"] "notes.txt" []) as [_ Hext].
    + reflexivity.
    + intros g Hg. apply list_elem_of_singleton in Hg as ->.
      split; [now exists (RasterFile wide_pixels) | reflexivity].
    + apply Hext; [now exists OtherFile | reflexivity].
Defined.

Lemma check_inputs_raise l w e w' :
  check_inputs l w = (Raise e, w') -> e = SystemExit 0.
Proof.
  induction l as [|f rest IH]; intros Hrun; [discriminate Hrun|].
  rewrite check_inputs_cons in Hrun.
  destruct (files w !! f); [|now injection Hrun as <- _].
  destruct (endswith f ".tif"); [now apply IH | now injection Hrun as <- _].
Qed.

Lemma check_scope_raise first l param w d0 e w' :
  files w !! first = Some (RasterFile d0) ->
  check_scope first l (Some (scope d0)) param w = (Raise e, w') ->
  e = SystemExit 0
  \/ (e = AttributeError
      /\ exists f, f ∈ l /\ forall d, files w !! f <> Some (RasterFile d)).
Proof.
  intros Hfirst. revert param.
  induction l as [|f rest IH]; intros param Hrun; [discriminate Hrun|].
  destruct (files w !! f) as [[d| |]|] eqn:Hd.
  2,3,4: rewrite check_scope_not_raster in Hrun
           by (intros d; rewrite Hd; discriminate);
         injection Hrun as <- _; right; split; [reflexivity|];
         exists f; split; [left | intros d; rewrite Hd; discriminate].
  rewrite (check_scope_cons _ _ _ _ _ _ d Hd) in Hrun.
  assert (Hrest : e = SystemExit 0
            \/ (e = AttributeError
                /\ exists f, f ∈ rest /\ forall d, files w !! f <> Some (RasterFile d))
          -> e = SystemExit 0
            \/ (e = AttributeError
                /\ exists g, g ∈ f :: rest /\ forall d, files w !! g <> Some (RasterFile d))).
  { intros [H|(H & g & Hg & Hgd)]; [now left|].
    right. split; [exact H|]. exists g. split; [now right | exact Hgd]. }
  destruct (String.eqb f first) eqn:E.
  - apply String.eqb_eq in E. subst f. rewrite Hfirst in Hd. injection Hd as <-.
    apply Hrest. eapply IH. exact Hrun.
  - destruct (mismatch (scope d0) d) eqn:Em.
    + injection Hrun as <- _. now left.
    + apply Hrest. eapply IH. exact Hrun.
Qed.

(** X18.  [initialization] ends abnormally in two ways only: [SystemExit]
    with status 0, or an [AttributeError] when an existing input named
    [*.tif] cannot be opened as a raster.  No index error and no unbound
    variable escapes from the loops. *)
Theorem initialization_exceptions paths param w e w' :
  initialization paths param w = (Raise e, w') ->
  e = SystemExit 0
  \/ (e = AttributeError
      /\ exists f, f ∈ inputs paths /\ is_Some (files w !! f)
                   /\ endswith f ".tif" = true
                   /\ forall d, files w !! f <> Some (RasterFile d)).
Proof.
  rewrite initialization_stages.
  destruct (inputs paths) as [|first rest] eqn:E.
  { intros Hrun. injection Hrun as <- _. now left. }
  destruct (check_inputs (first :: rest) (start_world w)) as [r1 w1] eqn:E1.
  destruct r1 as [[]|e1].
  2:{ intros Hrun. injection Hrun as <- _. left. eapply check_inputs_raise. exact E1. }
  destruct (check_inputs_inv _ _ _ _ E1) as [_ Hok1].
  destruct (Hok1 I) as [-> Hin]. clear Hok1 E1.
  assert (Hbad : forall f, f ∈ first :: rest ->
            (forall d, files w !! f <> Some (RasterFile d)) ->
            AttributeError = SystemExit 0
            \/ (AttributeError = AttributeError
                /\ exists f, f ∈ first :: rest /\ is_Some (files w !! f)
                     /\ endswith f ".tif" = true
                     /\ forall d, files w !! f <> Some (RasterFile d))).
  { intros f Hf Hnr. right. split; [reflexivity|]. exists f.
    destruct (Hin f Hf) as [Hsome Htif]. now repeat split. }
  destruct (files (start_world w) !! first) as [[d0| |]|] eqn:Hfirst.
  2,3,4: rewrite check_scope_not_raster by (intros d; rewrite Hfirst; discriminate);
         intros Hrun; injection Hrun as <- _; apply (Hbad first); [left|];
         intros d; cbn [start_world files] in Hfirst; rewrite Hfirst; discriminate.
  rewrite (check_scope_start _ _ _ _ d0 Hfirst).
  destruct (check_scope first (first :: rest) (Some (scope d0)) param (start_world w))
    as [r2 w2] eqn:E2.
  destruct r2 as [param'|e2]; [discriminate|].
  intros Hrun. injection Hrun as <- _.
  destruct (check_scope_raise _ _ _ _ _ _ _ Hfirst E2) as [H|(-> & f & Hf & Hnr)];
    [now left|].
  now apply (Hbad f).
Qed.

Lemma initialization_exceptions_witness :
  AttributeError = SystemExit 0
  \/ (AttributeError = AttributeError
      /\ exists f, f ∈ ["x.tif"]
           /\ is_Some (files (mk_World (<["x.tif" := OtherFile]> ∅) []) !! f)
           /\ endswith f ".tif" = true
           /\ forall d, files (mk_World (<["x.tif" := OtherFile]> ∅) []) !! f
                        <> Some (RasterFile d)).
Proof.
  apply (initialization_exceptions (mk_Paths ["x.tif"] "stats.csv") ∅
           (mk_World (<["x.tif" := OtherFile]> ∅) []) AttributeError
           (mk_World (<["x.tif" := OtherFile]> ∅) [Timecheck "Start"])).
  vm_compute. reflexivity.
Defined.

Lemma end_world_keeps paths w f :
  is_Some (files w !! f) ->
  files (end_world paths (start_world w)) !! f = files w !! f.
Proof.
  intros [y Hy]. cbn [end_world start_world files].
  destruct (files w !! input_stats paths) as [x|] eqn:Hs; [reflexivity|].
  rewrite lookup_insert_ne; [reflexivity|].
  intros Heq. rewrite Heq, Hy in Hs. discriminate Hs.
Qed.

Lemma end_world_has_stats paths w :
  is_Some (files (end_world paths (start_world w)) !! input_stats paths).
Proof.
  cbn [end_world start_world files].
  destruct (files w !! input_stats paths) as [x|] eqn:Hs.
  - rewrite Hs. now exists x.
  - rewrite lookup_insert_eq. eexists. reflexivity.
Qed.

(** X19.  A run of [initialization] that returns writes at most the
    statistics table: a file already at that path is kept as it is, an
    absent one is created with the eight row labels, the value column,
    separator ';' and decimal ','; every input file is unchanged, and the
    output is the start and the end report. *)
Theorem initialization_stats_file paths param w r w' :
  initialization paths param w = (Ok r, w') ->
  (is_Some (files w !! input_stats paths) -> files w' = files w)
  /\ (files w !! input_stats paths = None ->
      files w'
      = <[input_stats paths := CsvFile ";" "," ["value"]
            ["map_parts_total"; "output_raster_columns"; "output_raster_rows";
             "ref_part_name"; "size_max"; "std_max";
             "max_no_of_cl_ref"; "max_no_of_cl_total"]]> (files w))
  /\ (forall f, f ∈ inputs paths -> files w' !! f = files w !! f)
  /\ stdout w' = ((stdout w ++ [Timecheck "Start"]) ++ [Timecheck "End"])%list.
Proof.
  destruct r as [paths' param']. intros Hrun.
  destruct (initialization_returns _ _ _ _ _ _ Hrun)
    as (first & d0 & fl & dl & _ & _ & _ & _ & _ & Hall & _ & _ & _ & ->).
  split; [intros [x Hx]; cbn [end_world start_world files]; now rewrite Hx|].
  split; [intros Hnone; cbn [end_world start_world files]; now rewrite Hnone|].
  split; [|reflexivity].
  intros f Hf. destruct (Hall f Hf) as (_ & d & Hd & _).
  apply end_world_keeps. now exists (RasterFile d).
Qed.

Lemma fold_params_ext (fs1 fs2 : gmap string File) l param :
  (forall f, f ∈ l -> fs1 !! f = fs2 !! f) ->
  fold_params fs1 l param = fold_params fs2 l param.
Proof.
  revert param. induction l as [|f rest IH]; intros param Hext; [reflexivity|].
  cbn [fold_params]. rewrite <- (Hext f) by left.
  destruct (fs1 !! f) as [[d| |]|]; try reflexivity.
  apply IH. intros g Hg. apply Hext. now right.
Qed.

(** X20.  A second run of [initialization] after one that returned returns
    the same result and changes no file. *)
Theorem initialization_twice paths param w r w1 :
  initialization paths param w = (Ok r, w1) ->
  exists w2,
    initialization paths param w1 = (Ok r, w2)
    /\ files w2 = files w1.
Proof.
  intros Hrun. destruct r as [paths' param'].
  destruct (initialization_returns _ _ _ _ _ _ Hrun)
    as (first & d0 & fl & dl & Hhead & Hfirst & _ & _ & _ & Hall & -> & -> & _ & ->).
  assert (Hsame : forall f, f ∈ inputs paths ->
            files (end_world paths (start_world w)) !! f = files w !! f).
  { intros f Hf. destruct (Hall f Hf) as (_ & d & Hd & _).
    apply end_world_keeps. now exists (RasterFile d). }
  assert (Hfirst_in : first ∈ inputs paths).
  { destruct (inputs paths) as [|x l]; [discriminate Hhead|].
    injection Hhead as ->. left. }
  rewrite (initialization_same paths param (end_world paths (start_world w)) first d0).
  - eexists. split.
    + rewrite (fold_params_ext _ (files w) _ _ Hsame). reflexivity.
    + destruct (end_world_has_stats paths w) as [x Hx].
      set (w1 := end_world paths (start_world w)) in *.
      cbn [end_world start_world files]. now rewrite Hx.
  - exact Hhead.
  - now rewrite (Hsame first Hfirst_in).
  - intros f Hf. rewrite (Hsame f Hf). now apply Hall.
Qed.

Lemma fold_params_other fs l param (k : string) :
  k <> "Crd_all" -> k <> "res_desired" -> k <> "GeoRef" ->
  fold_params fs l param !! k = param !! k.
Proof.
  intros H1 H2 H3. revert param.
  induction l as [|f rest IH]; intros param; [reflexivity|].
  cbn [fold_params]. destruct (fs !! f) as [[d| |]|]; try reflexivity.
  rewrite IH. unfold scope_params.
  now rewrite !lookup_insert_ne by congruence.
Qed.

(** X21.  A run that returns hands back the [paths] it was given, sets
    "Crd_all", "res_desired" and "GeoRef" in [param], with the georeference
    being [calc_geotiff] of the stored box and resolution, and leaves every
    other key of [param] as it was. *)
Theorem initialization_param_keys paths param w paths' param' w' :
  initialization paths param w = (Ok (paths', param'), w') ->
  paths' = paths
  /\ (exists Crd_all res_desired G,
        param' !! "Crd_all" = Some (VArray Crd_all)
        /\ param' !! "res_desired" = Some (VArray res_desired)
        /\ param' !! "GeoRef" = Some (VGeoRef G)
        /\ calc_geotiff Crd_all res_desired = Ok G)
  /\ (forall k : string,
        k <> "Crd_all" -> k <> "res_desired" -> k <> "GeoRef" ->
        param' !! k = param !! k).
Proof.
  intros Hrun.
  destruct (initialization_returns _ _ _ _ _ _ Hrun)
    as (first & d0 & fl & dl & _ & _ & _ & _ & _ & _ & -> & Hfold & [p0 Hp0] & _).
  split; [reflexivity|]. split.
  - rewrite Hp0. eexists _, _, _.
    split; [apply scope_params_Crd_all|].
    split; [apply scope_params_res_desired|].
    split; [apply scope_params_GeoRef|].
    unfold bounding_box, pixel_sizes, georef_of.
    now destruct (GeoTransform dl) as [[[[[ulx xs] xr] uly] yr] ys].
  - intros k H1 H2 H3. rewrite Hfold. now apply fold_params_other.
Qed.

Lemma initialization_stats_file_witness :
  (is_Some (files example_world !! "stats.csv") ->
   files (end_world (mk_Paths ["a.tif"; "c.tif"] "stats.csv")
            (start_world example_world)) = files example_world)
  /\ (files example_world !! "stats.csv" = None ->
      files (end_world (mk_Paths ["a.tif"; "c.tif"] "stats.csv")
               (start_world example_world))
      = <["stats.csv" := CsvFile ";" "," ["value"]
            ["map_parts_total"; "output_raster_columns"; "output_raster_rows";
             "ref_part_name"; "size_max"; "std_max";
             "max_no_of_cl_ref"; "max_no_of_cl_total"]]> (files example_world))
  /\ (forall f, f ∈ ["a.tif"; "c.tif"] ->
        files (end_world (mk_Paths ["a.tif"; "c.tif"] "stats.csv")
                 (start_world example_world)) !! f
        = files example_world !! f)
  /\ stdout (end_world (mk_Paths ["a.tif"; "c.tif"] "stats.csv")
               (start_world example_world))
     = [Timecheck "Start"; Timecheck "End"].
Proof.
  apply (initialization_stats_file (mk_Paths ["a.tif"; "c.tif"] "stats.csv") ∅
           example_world
           (mk_Paths ["a.tif"; "c.tif"] "stats.csv",
            fold_params (files example_world) ["a.tif"; "c.tif"] ∅)
           (end_world (mk_Paths ["a.tif"; "c.tif"] "stats.csv")
              (start_world example_world))).
  vm_compute. reflexivity.
Defined.

Lemma initialization_twice_witness :
  exists w2,
    initialization (mk_Paths ["a.tif"; "c.tif"] "stats.csv") ∅
      (end_world (mk_Paths ["a.tif"; "c.tif"] "stats.csv")
         (start_world example_world))
    = (Ok (mk_Paths ["a.tif"; "c.tif"] "stats.csv",
           fold_params (files example_world) ["a.tif"; "c.tif"] ∅), w2)
    /\ files w2
       = files (end_world (mk_Paths ["a.tif"; "c.tif"] "stats.csv")
                  (start_world example_world)).
Proof.
  apply (initialization_twice (mk_Paths ["a.tif"; "c.tif"] "stats.csv") ∅
           example_world).
  vm_compute. reflexivity.
Defined.

Lemma initialization_param_keys_witness :
  mk_Paths ["a.tif"; "c.tif"] "stats.csv" = mk_Paths ["a.tif"; "c.tif"] "stats.csv"
  /\ (exists Crd_all res_desired G,
        fold_params (files example_world) ["a.tif"; "c.tif"]
          (<["year" := VOther "2015"]> ∅) !! "Crd_all" = Some (VArray Crd_all)
        /\ fold_params (files example_world) ["a.tif"; "c.tif"]
             (<["year" := VOther "2015"]> ∅) !! "res_desired"
           = Some (VArray res_desired)
        /\ fold_params (files example_world) ["a.tif"; "c.tif"]
             (<["year" := VOther "2015"]> ∅) !! "GeoRef" = Some (VGeoRef G)
        /\ calc_geotiff Crd_all res_desired = Ok G)
  /\ (forall k : string,
        k <> "Crd_all" -> k <> "res_desired" -> k <> "GeoRef" ->
        fold_params (files example_world) ["a.tif"; "c.tif"]
          (<["year" := VOther "2015"]> ∅) !! k
        = (<["year" := VOther "2015"]> ∅ : gmap string Value) !! k).
Proof.
  apply (initialization_param_keys (mk_Paths ["a.tif"; "c.tif"] "stats.csv")
           (<["year" := VOther "2015"]> ∅) example_world
           (mk_Paths ["a.tif"; "c.tif"] "stats.csv")
           (fold_params (files example_world) ["a.tif"; "c.tif"]
              (<["year" := VOther "2015"]> ∅))
           (end_world (mk_Paths ["a.tif"; "c.tif"] "stats.csv")
              (start_world example_world))).
  vm_compute. reflexivity.
Defined.

(** X22.  Whatever the signs of the pixel sizes of the inputs, the stored
    resolution has non-negative entries and the stored georeference has
    pixelWidth >= 0 and pixelHeight <= 0. *)
Theorem initialization_georef_signs paths param w paths' param' w' :
  initialization paths param w = (Ok (paths', param'), w') ->
  exists res_x res_y G,
    param' !! "res_desired" = Some (VArray [res_x; res_y])
    /\ param' !! "GeoRef" = Some (VGeoRef G)
    /\ (0 <= res_x)%Q /\ (0 <= res_y)%Q
    /\ (0 <= pixelWidth G)%Q /\ (pixelHeight G <= 0)%Q.
Proof.
  intros Hrun.
  destruct (initialization_returns _ _ _ _ _ _ Hrun)
    as (first & d0 & fl & dl & _ & _ & _ & _ & _ & _ & _ & _ & [p0 ->] & _).
  eexists _, _, _.
  split; [apply scope_params_res_desired|].
  split; [apply scope_params_GeoRef|].
  unfold georef_of, pixel_sizes.
  destruct (GeoTransform dl) as [[[[[ulx xs] xr] uly] yr] ys].
  cbn [fst snd pixelWidth pixelHeight].
  split; [apply Qabs_nonneg|]. split; [apply Qabs_nonneg|].
  split; [apply Qabs_nonneg|].
  change 0%Q with (- 0)%Q. apply Qopp_le_compat, Qabs_nonneg.
Qed.

Lemma initialization_georef_signs_witness :
  exists res_x res_y G,
    fold_params (files example_world) ["a.tif"; "c.tif"] ∅ !! "res_desired"
    = Some (VArray [res_x; res_y])
    /\ fold_params (files example_world) ["a.tif"; "c.tif"] ∅ !! "GeoRef"
       = Some (VGeoRef G)
    /\ (0 <= res_x)%Q /\ (0 <= res_y)%Q
    /\ (0 <= pixelWidth G)%Q /\ (pixelHeight G <= 0)%Q.
Proof.
  apply (initialization_georef_signs (mk_Paths ["a.tif"; "c.tif"] "stats.csv") ∅
           example_world (mk_Paths ["a.tif"; "c.tif"] "stats.csv")
           (fold_params (files example_world) ["a.tif"; "c.tif"] ∅)
           (end_world (mk_Paths ["a.tif"; "c.tif"] "stats.csv")
              (start_world example_world))).
  vm_compute. reflexivity.
Defined.

(** X23.  When an input has pixels as wide as they are high, the stored
    georeference has pixelHeight equal to minus the vertical pixel size
    magnitude and pixelWidth equal to the horizontal one. *)
Theorem initialization_square_pixels paths param w paths' param' w' f d :
  initialization paths param w = (Ok (paths', param'), w') ->
  f ∈ inputs paths ->
  files w !! f = Some (RasterFile d) ->
  (Qabs (fst (pixel_sizes d)) == Qabs (snd (pixel_sizes d)))%Q ->
  exists G,
    param' !! "GeoRef" = Some (VGeoRef G)
    /\ (pixelHeight G == - Qabs (snd (pixel_sizes d)))%Q
    /\ (pixelWidth G == Qabs (fst (pixel_sizes d)))%Q.
Proof.
  intros Hrun Hf Hd Hsq.
  destruct (initialization_returns _ _ _ _ _ _ Hrun)
    as (first & d0 & fl & dl & _ & _ & _ & _ & Hsl & Hall & _ & _ & [p0 ->] & _).
  destruct (Hall f Hf) as (_ & d' & Hd' & Hs).
  rewrite Hd in Hd'. injection Hd' as <-.
  destruct Hsl as (_ & Hxl & Hyl), Hs as (_ & Hx & Hy).
  exists (georef_of dl). split; [apply scope_params_GeoRef|].
  assert (Hgl : pixelHeight (georef_of dl) = (- Qabs (fst (pixel_sizes dl)))%Q
                /\ pixelWidth (georef_of dl) = Qabs (snd (pixel_sizes dl))).
  { unfold georef_of, pixel_sizes.
    now destruct (GeoTransform dl) as [[[[[ulx xs] xr] uly] yr] ys]. }
  destruct Hgl as [-> ->]. split.
  - rewrite <- Hxl, Hx, Hsq. reflexivity.
  - rewrite <- Hyl, Hy, Hsq. reflexivity.
Qed.

Lemma initialization_square_pixels_witness :
  exists G,
    fold_params (files example_world) ["b.tif"] ∅ !! "GeoRef" = Some (VGeoRef G)
    /\ (pixelHeight G == - Qabs (snd (pixel_sizes square_pixels)))%Q
    /\ (pixelWidth G == Qabs (fst (pixel_sizes square_pixels)))%Q.
Proof.
  apply (initialization_square_pixels (mk_Paths ["b.tif"] "stats.csv") ∅
           example_world (mk_Paths ["b.tif"] "stats.csv")
           (fold_params (files example_world) ["b.tif"] ∅)
           (end_world (mk_Paths ["b.tif"] "stats.csv") (start_world example_world))
           "b.tif" square_pixels).
  - vm_compute. reflexivity.
  - left.
  - reflexivity.
  - reflexivity.
Defined.

(** ** A raster written by [array_to_raster] and the validator *)

Lemma same_scope_of_eq (d0 d : Dataset) :
  bounding_box d = bounding_box d0 -> pixel_sizes d = pixel_sizes d0 ->
  same_scope d0 d.
Proof.
  intros Hb Hp. unfold same_scope. rewrite Hb, Hp. apply same_scope_refl.
Qed.

(** X15.  A raster written by [array_to_raster] has the scope and resolution
    of its reference: [initialization] on the reference and the new raster
    (both named [*.tif]) returns. *)
Theorem array_to_raster_output_passes_validation rf a dest src_path src stats
    (param : gmap string Value) w :
  files w !! src_path = Some (RasterFile src) ->
  (1 <= RasterXSize src)%Z -> (1 <= RasterYSize src)%Z ->
  (Z.of_nat (ncols a) <= RasterXSize src)%Z ->
  (Z.of_nat (nrows a) <= RasterYSize src)%Z ->
  endswith src_path ".tif" = true -> endswith dest ".tif" = true ->
  exists w1 param' w2,
    array_to_raster rf a dest src_path w = (Ok tt, w1)
    /\ initialization (mk_Paths [src_path; dest] stats) param w1
       = (Ok (mk_Paths [src_path; dest] stats, param'), w2).
Proof.
  intros Hsrc HX HY Hc Hr Htif1 Htif2.
  rewrite (array_to_raster_run rf a dest src_path src w Hsrc HX HY Hc Hr).
  set (dnew := mk_Dataset _ _ _ _ _ _ _ _).
  assert (Hscope : same_scope src dnew).
  { apply same_scope_of_eq; unfold dnew, bounding_box, pixel_sizes;
      cbn [GeoTransform RasterXSize RasterYSize];
      now destruct (GeoTransform src) as [[[[[ulx xs] xr] uly] yr] ys]. }
  set (w1 := mk_World _ _).
  assert (Hdest : files w1 !! dest = Some (RasterFile dnew))
    by (unfold w1; cbn [files]; apply lookup_insert_eq).
  destruct (decide (dest = src_path)) as [->|Hne].
  - eexists _, _, _. split; [reflexivity|].
    apply (initialization_same _ _ _ src_path dnew); [reflexivity | exact Hdest |].
    intros f Hf. cbn [inputs] in Hf.
    assert (f = src_path) as ->.
    { apply elem_of_cons in Hf as [->|Hf]; [reflexivity|].
      now apply list_elem_of_singleton in Hf. }
    split; [exact Htif1|]. exists dnew. split; [exact Hdest | apply same_scope_refl].
  - assert (Hsrc1 : files w1 !! src_path = Some (RasterFile src))
      by (unfold w1; cbn [files]; now rewrite lookup_insert_ne).
    eexists _, _, _. split; [reflexivity|].
    apply (initialization_same _ _ _ src_path src); [reflexivity | exact Hsrc1 |].
    intros f Hf. cbn [inputs] in Hf. apply elem_of_cons in Hf as [->|Hf].
    + split; [exact Htif1|]. exists src. split; [exact Hsrc1 | apply same_scope_refl].
    + apply list_elem_of_singleton in Hf as ->.
      split; [exact Htif2|]. exists dnew. split; [exact Hdest | exact Hscope].
Qed.

Lemma array_to_raster_output_passes_validation_witness :
  exists w1 param' w2,
    array_to_raster (fun x => x) example_array "out.tif" "a.tif" example_world
    = (Ok tt, w1)
    /\ initialization (mk_Paths ["a.tif"; "out.tif"] "stats.csv") ∅ w1
       = (Ok (mk_Paths ["a.tif"; "out.tif"] "stats.csv", param'), w2).
Proof.
  apply (array_to_raster_output_passes_validation (fun x => x) example_array
           "out.tif" "a.tif" wide_pixels "stats.csv" ∅ example_world);
    first [reflexivity | simpl; lia].
Defined.

(** ** create_voronoi_polygons *)

Lemma np_index_in_range {A : Type} (a : list A) (i : Z) :
  (- Z.of_nat (length a) <= i < Z.of_nat (length a))%Z ->
  exists x, np_index a i = Ok x
            /\ a !! Z.to_nat (i mod Z.of_nat (length a)) = Some x.
Proof.
  intros Hi. unfold np_index, index.
  destruct (0 <=? i)%Z eqn:E0.
  - apply Z.leb_le in E0. rewrite Z.mod_small by lia.
    destruct (lookup_lt_is_Some_2 a (Z.to_nat i)) as [x Hx]; [lia|].
    exists x. now rewrite Hx.
  - apply Z.leb_gt in E0.
    destruct (0 <=? Z.of_nat (length a) + i)%Z eqn:E1;
      [|apply Z.leb_gt in E1; lia].
    assert (Hmod : (i mod Z.of_nat (length a) = Z.of_nat (length a) + i)%Z).
    { symmetry. apply (Z.mod_unique _ _ (-1)); lia. }
    rewrite Hmod.
    destruct (lookup_lt_is_Some_2 a (Z.to_nat (Z.of_nat (length a) + i)))
      as [x Hx]; [lia|].
    exists x. now rewrite Hx.
Qed.

Lemma np_index_out_of_range {A : Type} (a : list A) (i : Z) :
  (i < - Z.of_nat (length a) \/ Z.of_nat (length a) <= i)%Z ->
  np_index a i = Raise IndexError.
Proof.
  intros Hi. unfold np_index, index.
  destruct (0 <=? i)%Z eqn:E0.
  - apply Z.leb_le in E0. rewrite lookup_ge_None_2; [reflexivity | lia].
  - apply Z.leb_gt in E0.
    destruct (0 <=? Z.of_nat (length a) + i)%Z eqn:E1; [|reflexivity].
    apply Z.leb_le in E1. lia.
Qed.

Lemma np_index_fails_with_IndexError {A : Type} (a : list A) (i : Z) (e : exn) :
  np_index a i = Raise e -> e = IndexError.
Proof.
  unfold np_index, index. intros H.
  destruct (0 <=? i)%Z.
  - destruct (a !! Z.to_nat i); [discriminate H | now injection H as <-].
  - destruct (0 <=? Z.of_nat (length a) + i)%Z; [|now injection H as <-].
    destruct (a !! Z.to_nat (Z.of_nat (length a) + i));
      [discriminate H | now injection H as <-].
Qed.

Lemma traverse_Forall2 {A B : Type} (f : A -> result B) (R : A -> B -> Prop)
    (l : list A) :
  (forall x, x ∈ l -> exists y, f x = Ok y /\ R x y) ->
  exists ys, traverse f l = Ok ys /\ Forall2 R l ys.
Proof.
  induction l as [|x l IH]; intros Hall.
  - exists []. split; [reflexivity | constructor].
  - destruct (Hall x) as (y & Hy & HR); [left|].
    destruct IH as (ys & Hys & HF); [intros z Hz; apply Hall; now right|].
    exists (y :: ys). cbn [traverse]. rewrite Hy. cbn [mbind result_bind].
    rewrite Hys. split; [reflexivity | now constructor].
Qed.

Lemma traverse_raises {A B : Type} (f : A -> result B) (l : list A) (e0 : exn) :
  (forall x e, f x = Raise e -> e = e0) ->
  (exists x, x ∈ l /\ f x = Raise e0) ->
  traverse f l = Raise e0.
Proof.
  intros Honly. induction l as [|x l IH]; intros (z & Hz & Hfz); [inversion Hz|].
  cbn [traverse]. destruct (f x) as [y|e] eqn:Hx.
  - cbn [mbind result_bind]. rewrite IH; [reflexivity|].
    apply elem_of_cons in Hz as [->|Hz]; [congruence|]. now exists z.
  - cbn [mbind result_bind]. now rewrite (Honly x e Hx).
Qed.

Lemma traverse_fails_with {A B : Type} (f : A -> result B) (l : list A) (e0 e : exn) :
  (forall x e, f x = Raise e -> e = e0) ->
  traverse f l = Raise e -> e = e0.
Proof.
  intros Honly. induction l as [|x l IH]; cbn [traverse]; [discriminate|].
  destruct (f x) as [y|e1] eqn:Hx; cbn [mbind result_bind].
  - destruct (traverse f l) as [ys|e2]; cbn [mbind result_bind];
      [discriminate|]. intros H. injection H as <-. now apply IH.
  - intros H. injection H as <-. now apply (Honly x).
Qed.

(** X24.  When every ridge index lies in [-n, n) for n Voronoi vertices,
    [create_voronoi_polygons] polygonizes one line per ridge, none dropped,
    each index read modulo n: the index -1 of a ridge that reaches infinity
    is read as the last vertex. *)
Theorem create_voronoi_polygons_lines
    (Voronoi : list (Q * Q) -> result VoronoiDiagram)
    (polygonize : list (list (Q * Q)) -> list Geometry)
    (points_list : list (Q * Q)) (d : VoronoiDiagram) :
  Voronoi points_list = Ok d ->
  (forall ridge i, ridge ∈ ridge_vertices d -> i ∈ ridge ->
     (- Z.of_nat (length (vertices d)) <= i < Z.of_nat (length (vertices d)))%Z) ->
  exists lines,
    create_voronoi_polygons Voronoi polygonize points_list = Ok (polygonize lines)
    /\ Forall2
         (Forall2 (fun i pt =>
            vertices d !! Z.to_nat (i mod Z.of_nat (length (vertices d)))
            = Some pt))
         (ridge_vertices d) lines.
Proof.
  intros HV Hrange. unfold create_voronoi_polygons. rewrite HV.
  cbn [mbind result_bind].
  destruct (traverse_Forall2
              (fun line => traverse (np_index (vertices d)) line)
              (Forall2 (fun i pt =>
                 vertices d !! Z.to_nat (i mod Z.of_nat (length (vertices d)))
                 = Some pt))
              (ridge_vertices d)) as (lines & Hlines & HF).
  - intros ridge Hridge. apply traverse_Forall2.
    intros i Hi. apply np_index_in_range. now apply (Hrange ridge).
  - exists lines. now rewrite Hlines.
Qed.

(** X25.  A ridge index outside [-n, n), and so any ridge of a diagram
    without vertices, makes [create_voronoi_polygons] raise [IndexError]. *)
Theorem create_voronoi_polygons_index_error
    (Voronoi : list (Q * Q) -> result VoronoiDiagram)
    (polygonize : list (list (Q * Q)) -> list Geometry)
    (points_list : list (Q * Q)) (d : VoronoiDiagram) (ridge : list Z) (i : Z) :
  Voronoi points_list = Ok d ->
  ridge ∈ ridge_vertices d -> i ∈ ridge ->
  (i < - Z.of_nat (length (vertices d)) \/ Z.of_nat (length (vertices d)) <= i)%Z ->
  create_voronoi_polygons Voronoi polygonize points_list = Raise IndexError.
Proof.
  intros HV Hridge Hi Hout. unfold create_voronoi_polygons. rewrite HV.
  cbn [mbind result_bind].
  rewrite (traverse_raises
             (fun line => traverse (np_index (vertices d)) line)
             (ridge_vertices d) IndexError); [reflexivity| |].
  - intros line e. apply traverse_fails_with.
    intros x e'. apply np_index_fails_with_IndexError.
  - exists ridge. split; [exact Hridge|].
    apply traverse_raises.
    + intros x e'. apply np_index_fails_with_IndexError.
    + exists i. split; [exact Hi | now apply np_index_out_of_range].
Qed.

Lemma create_voronoi_polygons_lines_witness :
  exists lines,
    create_voronoi_polygons
      (fun _ => Ok (mk_VoronoiDiagram [(1 # 2, 1 # 2); (3, 3)]%Q [[-1; 0]; [0; 1]]%Z))
      (map Polygon) [(0, 0); (1, 0); (0, 1); (5, 5)]%Q
    = Ok (map Polygon lines)
    /\ Forall2
         (Forall2 (fun i pt =>
            [(1 # 2, 1 # 2); (3, 3)]%Q !! Z.to_nat (i mod 2) = Some pt))
         [[-1; 0]; [0; 1]]%Z lines.
Proof.
  apply (create_voronoi_polygons_lines
           (fun _ => Ok (mk_VoronoiDiagram [(1 # 2, 1 # 2); (3, 3)]%Q
                           [[-1; 0]; [0; 1]]%Z))
           (map Polygon) [(0, 0); (1, 0); (0, 1); (5, 5)]%Q
           (mk_VoronoiDiagram [(1 # 2, 1 # 2); (3, 3)]%Q [[-1; 0]; [0; 1]]%Z)).
  - reflexivity.
  - cbn [ridge_vertices vertices length]. intros ridge i Hridge Hi.
    apply elem_of_cons in Hridge as [->|Hridge].
    + apply elem_of_cons in Hi as [->|Hi]; [lia|].
      apply list_elem_of_singleton in Hi as ->. lia.
    + apply list_elem_of_singleton in Hridge as ->.
      apply elem_of_cons in Hi as [->|Hi]; [lia|].
      apply list_elem_of_singleton in Hi as ->. lia.
Defined.

Lemma create_voronoi_polygons_index_error_witness :
  create_voronoi_polygons
    (fun _ => Ok (mk_VoronoiDiagram [] [[-1; -1]]%Z))
    (map Polygon) [(0, 0); (1, 0)]%Q
  = Raise IndexError.
Proof.
  apply (create_voronoi_polygons_index_error
           (fun _ => Ok (mk_VoronoiDiagram [] [[-1; -1]]%Z))
           (map Polygon) [(0, 0); (1, 0)]%Q
           (mk_VoronoiDiagram [] [[-1; -1]]%Z) [-1; -1]%Z (-1)%Z).
  - reflexivity.
  - left.
  - left.
  - left. simpl. lia.
Defined.
